(** * A route-service proxy: request director and allow-list transport

    Shallow embedding of [main.go]: the [Director] closure built by
    [NewProxy], [logRequest], [contains], [NewLoggingRoundTripper],
    [LoggingRoundTripper.RoundTrip] and [sleep], together with the small part
    of the Go library they rest on ([strings.Split], [http.Header.Get],
    [ioutil.ReadAll] over an in-memory reader, the [log] package).

    [main] (reading the environment, resolving the names of the allow-list,
    binding the listener) is not part of the development: the allow-list and
    the TLS flag are taken as given to [NewLoggingRoundTripper] and
    [NewProxy].

    Effects are explicit: a computation threads the list of observable events
    produced so far (log calls, sleeps, the rewrite of the shared request,
    outbound network calls) and either finishes with a value or terminates
    the process ([log.Fatalln]). *)

From Stdlib Require Import ZArith Lia Ascii String.
From stdpp Require Import base strings list gmap.

Local Open Scope Z_scope.

(** ** Constants of the program *)

Definition DEFAULT_PORT : string := "8080".
Definition FORWARDED_FOR_HEADER : string := "X-Forwarded-For".
Definition CF_FORWARDED_URL_HEADER : string := "X-Cf-Forwarded-Url".
Definition CF_PROXY_SIGNATURE_HEADER : string := "X-Cf-Proxy-Signature".

(** The line feed that ends the format strings of the program. *)
Definition LF : string := String (Ascii.ascii_of_nat 10) EmptyString.

(** ** Go values *)

(** An [error] value is represented by the text of its [Error()] method. *)
Definition error : Type := string.

(** A Go pair [(value, err)] in which exactly one side is meaningful. *)
Inductive GoResult (A : Type) : Type :=
| Ok (a : A)
| Err (e : error).
Arguments Ok {A} a.
Arguments Err {A} e.

(** [http.Header] is [map[string][]string]; the nil map reads as the empty
    one. *)
Abbreviation Header := (gmap string (list string)).

(** [Header.Get]: the first value stored under the key, [""] when there is
    none.  Go canonicalises the key first; the three keys of this program
    are already in canonical form. *)
Definition Header_Get (h : Header) (key : string) : string :=
  match h !! key with
  | Some (v :: _) => v
  | _ => ""
  end.

(** ** One-shot byte streams *)

(** An [io.Reader] over bytes held by the peer or by a buffer: [rd_off] bytes
    of [rd_buf] were consumed already, and [rd_err] is the error the stream
    ends with instead of a clean end of file. *)
Record Reader : Type := mkReader {
  rd_buf : list Byte.byte;
  rd_off : nat;
  rd_err : option error
}.

Definition bytes_NewBuffer (buf : list Byte.byte) : Reader :=
  {| rd_buf := buf; rd_off := 0%nat; rd_err := None |}.

Definition bytes_NewBufferString (s : string) : Reader :=
  bytes_NewBuffer (String.list_byte_of_string s).

Definition ioutil_NopCloser (r : Reader) : Reader := r.

(** [ioutil.ReadAll]: everything from the current position to the end, and
    the error met on the way, if any. *)
Definition ioutil_ReadAll (r : Reader) : list Byte.byte * option error :=
  (drop (rd_off r) (rd_buf r), rd_err r).

(** The conversion [string(body)]. *)
Definition string_of_bytes (b : list Byte.byte) : string :=
  String.string_of_list_byte b.

(** ** Requests and responses *)

Record URL : Type := mkURL {
  Scheme : string;
  Opaque : string;
  Host : string;
  Path : string;
  RawPath : string;
  RawQuery : string;
  Fragment : string
}.

(** The zero value [url.URL{}]. *)
Definition URL_zero : URL :=
  {| Scheme := ""; Opaque := ""; Host := ""; Path := ""; RawPath := "";
     RawQuery := ""; Fragment := "" |}.

Record Request : Type := mkRequest {
  req_Method : string;
  req_URL : URL;
  req_Proto : string;
  req_Header : Header;
  req_Body : option Reader;
  req_ContentLength : Z;
  req_Host : string;
  req_RemoteAddr : string
}.

Record Response : Type := mkResponse {
  res_Status : string;
  res_StatusCode : Z;
  res_Header : Header;
  res_Body : Reader
}.

Definition set_req_Body (req : Request) (b : option Reader) : Request :=
  {| req_Method := req_Method req; req_URL := req_URL req;
     req_Proto := req_Proto req; req_Header := req_Header req;
     req_Body := b; req_ContentLength := req_ContentLength req;
     req_Host := req_Host req; req_RemoteAddr := req_RemoteAddr req |}.

Definition set_req_URL (req : Request) (u : URL) : Request :=
  {| req_Method := req_Method req; req_URL := u;
     req_Proto := req_Proto req; req_Header := req_Header req;
     req_Body := req_Body req; req_ContentLength := req_ContentLength req;
     req_Host := req_Host req; req_RemoteAddr := req_RemoteAddr req |}.

Definition set_req_Host (req : Request) (h : string) : Request :=
  {| req_Method := req_Method req; req_URL := req_URL req;
     req_Proto := req_Proto req; req_Header := req_Header req;
     req_Body := req_Body req; req_ContentLength := req_ContentLength req;
     req_Host := h; req_RemoteAddr := req_RemoteAddr req |}.

Definition set_req_Header (req : Request) (h : Header) : Request :=
  {| req_Method := req_Method req; req_URL := req_URL req;
     req_Proto := req_Proto req; req_Header := h;
     req_Body := req_Body req; req_ContentLength := req_ContentLength req;
     req_Host := req_Host req; req_RemoteAddr := req_RemoteAddr req |}.

Definition set_res_Body (res : Response) (b : Reader) : Response :=
  {| res_Status := res_Status res; res_StatusCode := res_StatusCode res;
     res_Header := res_Header res; res_Body := b |}.

(** ** Observable events and the effect monad *)

(** Arguments of a log call. *)
Inductive Value : Type :=
| VStr (s : string)
| VBool (b : bool)
| VInt (n : Z)
| VHeader (h : Header).

Inductive LogCall : Type :=
| Printf (format : string) (args : list Value)
| Println (args : list Value).

Inductive Event : Type :=
| EvLog (c : LogCall)
    (** a call of the [log] package *)
| EvSleep (d : Z)
    (** [time.Sleep(d)], [d] in nanoseconds *)
| EvRewrite (u : URL)
    (** [req.URL = url; req.Host = url.Host] on the shared request *)
| EvNetwork (req : Request)
    (** the outbound call of the real [http.Transport] *)
.

(** How a computation ends: with a value, or with the process gone
    ([os.Exit]). *)
Inductive Outcome (A : Type) : Type :=
| Done (a : A)
| Exit (code : Z).
Arguments Done {A} a.
Arguments Exit {A} code.

Definition M (A : Type) : Type := list Event -> Outcome A * list Event.

Definition ret {A} (a : A) : M A := fun tr => (Done a, tr).

Definition bind {A B} (m : M A) (k : A -> M B) : M B :=
  fun tr =>
    match m tr with
    | (Done a, tr') => k a tr'
    | (Exit c, tr') => (Exit c, tr')
    end.

Declare Scope go_scope.
Delimit Scope go_scope with go.
Notation "x <- m ;; k" := (bind m (fun x => k))
  (at level 100, m at next level, right associativity) : go_scope.
Notation "m ;;; k" := (bind m (fun _ => k))
  (at level 100, right associativity) : go_scope.
Local Open Scope go_scope.

Definition emit (e : Event) : M unit := fun tr => (Done tt, tr ++ [e]).

Definition os_Exit {A} (code : Z) : M A := fun tr => (Exit code, tr).

Definition log_Printf (format : string) (args : list Value) : M unit :=
  emit (EvLog (Printf format args)).

Definition log_Println (args : list Value) : M unit :=
  emit (EvLog (Println args)).

(** [log.Fatalln] is [Println] followed by [os.Exit(1)]. *)
Definition log_Fatalln {A} (args : list Value) : M A :=
  log_Println args ;;; os_Exit 1.

(** ** [strings.Split] with a non-empty separator

    Go cuts at the leftmost occurrence of the separator and goes on after
    it.  [split_from] scans once: [skip] counts the bytes of a separator
    still to be passed over, [cur] is the entry being collected. *)
Fixpoint split_from (sep : string) (skip : nat) (cur s : string) : list string :=
  match s with
  | EmptyString => [cur]
  | String c s' =>
      match skip with
      | S k => split_from sep k cur s'
      | O =>
          if String.prefix sep s
          then cur :: split_from sep (String.length sep - 1) "" s'
          else split_from sep 0 (cur +:+ String c "") s'
      end
  end.

(** With an empty separator Go explodes the string into its characters;
    the program never does that, and the model explodes into bytes. *)
Definition strings_Split (s sep : string) : list string :=
  match sep with
  | EmptyString => (fun c => String c "") <$> String.list_ascii_of_string s
  | _ => split_from sep 0 "" s
  end.

(** The expression [strings.Split(forwardedFOR, ", ")[0]]; indexing an empty
    slice panics, which the split never produces (see [strings_Split_cons]). *)
Definition first_entry (forwardedFOR : string) : string :=
  match strings_Split forwardedFOR ", " with
  | x :: _ => x
  | [] => ""
  end.

(** ** [contains] *)

Fixpoint contains (s : list string) (e : string) : bool :=
  match s with
  | [] => false
  | a :: s' => if String.eqb a e then true else contains s' e
  end.

(** ** The platform

    What the program takes from its environment and from the Go library
    without defining it: the process environment, [strconv.ParseInt],
    [url.Parse], [URL.String], the network behind [http.Transport], and the
    header bookkeeping [httputil.ReverseProxy] does between its director and
    its transport (it removes hop-by-hop headers and appends the peer address
    to [X-Forwarded-For]). *)
Class Platform : Type := {
  os_Getenv : string -> string;
  strconv_ParseInt : string -> Z -> Z -> GoResult Z;
  url_Parse : string -> GoResult URL;
  url_String : URL -> string;
  network : bool -> Request -> GoResult Response;
  proxy_Header : Request -> Header
}.

(** [int64] arithmetic wraps around. *)
Definition wrap64 (z : Z) : Z := (z + 2 ^ 63) mod 2 ^ 64 - 2 ^ 63.

Definition time_Millisecond : Z := 1000000.

(** [time.Duration(n) * time.Millisecond]. *)
Definition Duration_Milliseconds (n : Z) : Z := wrap64 (n * time_Millisecond).

Definition time_Sleep (d : Z) : M unit := emit (EvSleep d).

(** How long [time.Sleep(d)] holds the caller: a negative or zero duration
    returns immediately. *)
Definition pause (d : Z) : Z := Z.max 0 d.

(** [http.RoundTripper]. *)
Class RoundTripper (T : Type) : Type :=
  RoundTrip : T -> Request -> M (GoResult Response).

(** The part of [http.Transport] the program sets. *)
Record http_Transport : Type := mkTransport {
  InsecureSkipVerify : bool
}.

Record LoggingRoundTripper (T : Type) : Type := mkLoggingRoundTripper {
  transport : T;
  limit : list string
}.
Arguments mkLoggingRoundTripper {T} transport limit.
Arguments transport {T} l.
Arguments limit {T} l.

(** [httputil.ReverseProxy], with the two fields [NewProxy] fills in. *)
Record ReverseProxy (T : Type) : Type := mkReverseProxy {
  Director : Request -> M Request;
  Transport : T
}.
Arguments mkReverseProxy {T} Director Transport.
Arguments Director {T} r.
Arguments Transport {T} r.

Section Program.
Context {P : Platform}.

(** [sleep] (lines 181-194). *)
Definition sleep : M (option error) :=
  let sleepMilliString := os_Getenv "ROUTE_SERVICE_SLEEP_MILLI" in
  if negb (String.eqb sleepMilliString "") then
    match strconv_ParseInt sleepMilliString 0 64 with
    | Err err => ret (Some err)
    | Ok sleepMilli =>
        log_Printf ("Sleeping for %d milliseconds" +:+ LF) [VInt sleepMilli] ;;;
        time_Sleep (Duration_Milliseconds sleepMilli) ;;;
        ret None
    end
  else ret None.

(** [logRequest] (lines 103-113). *)
Definition logRequest (forwardedFOR forwardedURL sigHeader body : string)
    (headers : Header) (skipSslValidation : bool) : M unit :=
  log_Printf "Skip ssl validation set to %t" [VBool skipSslValidation] ;;;
  log_Println [VStr "Received request: "] ;;;
  log_Printf ("%s: %s" +:+ LF) [VStr FORWARDED_FOR_HEADER; VStr forwardedFOR] ;;;
  log_Printf ("%s: %s" +:+ LF) [VStr CF_FORWARDED_URL_HEADER; VStr forwardedURL] ;;;
  log_Printf ("%s: %s" +:+ LF) [VStr CF_PROXY_SIGNATURE_HEADER; VStr sigHeader] ;;;
  log_Println [VStr ""] ;;;
  log_Printf ("Headers: %#v" +:+ LF) [VHeader headers] ;;;
  log_Println [VStr ""] ;;;
  log_Printf ("Request Body: %s" +:+ LF) [VStr body].

(** The buffering of the request body (lines 73-81): the bytes read, and
    the request with its body replaced by a buffer over them. *)
Definition buffer_body (req : Request) : M (list Byte.byte * Request) :=
  match req_Body req with
  | Some r =>
      match ioutil_ReadAll r with
      | (_, Some err) => log_Fatalln [VStr err]
      | (body, None) =>
          ret (body, set_req_Body req
                       (Some (ioutil_NopCloser (bytes_NewBuffer body))))
      end
  | None => ret ([], req)
  end.

(** The [Director] closure of [NewProxy] (lines 68-97).  The request is a
    pointer in Go; here the mutated request is the result. *)
Definition director (skipSslValidation : bool) (req : Request) : M Request :=
  let forwardedFOR := Header_Get (req_Header req) FORWARDED_FOR_HEADER in
  let forwardedURL := Header_Get (req_Header req) CF_FORWARDED_URL_HEADER in
  let sigHeader := Header_Get (req_Header req) CF_PROXY_SIGNATURE_HEADER in
  br <- buffer_body req ;;
  let body := fst br in
  let req := snd br in
  logRequest forwardedFOR forwardedURL sigHeader (string_of_bytes body)
             (req_Header req) skipSslValidation ;;;
  err <- sleep ;;
  match err with
  | Some e => log_Fatalln [VStr e]
  | None =>
      match url_Parse forwardedURL with
      | Err e => log_Fatalln [VStr e]
      | Ok url =>
          emit (EvRewrite url) ;;;
          ret (set_req_Host (set_req_URL req url) (Host url))
      end
  end.

(** The real transport: one outbound call, answered by the network. *)
#[export] Instance http_Transport_RoundTrip : RoundTripper http_Transport :=
  fun t request =>
    emit (EvNetwork request) ;;;
    ret (network (InsecureSkipVerify t) request).

(** [NewLoggingRoundTripper] (lines 129-137). *)
Definition NewLoggingRoundTripper (accessList : list string)
    (skipSslValidation : bool) : LoggingRoundTripper http_Transport :=
  let tr := {| InsecureSkipVerify := skipSslValidation |} in
  {| transport := tr; limit := accessList |}.

(** The synthetic response of a denial (lines 152-155); the fields the
    literal does not name keep their zero values. *)
Definition forbidden : Response :=
  {| res_Status := ""; res_StatusCode := 403; res_Header := ∅;
     res_Body := ioutil_NopCloser (bytes_NewBufferString "Forbidden") |}.

(** The second half of [RoundTrip] (lines 161-178): what is done with the
    answer of the underlying transport. *)
Definition relay_response (r : GoResult Response) : M (GoResult Response) :=
  match r with
  | Err err => ret (Err err)
  | Ok res =>
      match ioutil_ReadAll (res_Body res) with
      | (_, Some err) => log_Fatalln [VStr err]
      | (body, None) =>
          log_Println [VStr ""] ;;;
          log_Printf ("Response Headers: %#v" +:+ LF) [VHeader (res_Header res)] ;;;
          log_Println [VStr ""] ;;;
          log_Printf ("Response Body: %s" +:+ LF) [VStr (string_of_bytes body)] ;;;
          log_Println [VStr ""] ;;;
          let res := set_res_Body res (ioutil_NopCloser (bytes_NewBuffer body)) in
          log_Println [VStr "Sending response to GoRouter..."] ;;;
          ret (Ok res)
      end
  end.

(** The condition of the [if] of line 149. *)
Definition denied (limit : list string) (remoteIP : string) : bool :=
  Nat.ltb 0 (length limit) && negb (contains limit remoteIP).

(** [LoggingRoundTripper.RoundTrip] (lines 139-179). *)
Definition LoggingRoundTripper_RoundTrip {T} `{RoundTripper T}
    (lrt : LoggingRoundTripper T) (request : Request) : M (GoResult Response) :=
  let forwardedFOR := Header_Get (req_Header request) FORWARDED_FOR_HEADER in
  let remoteIP := first_entry forwardedFOR in
  log_Println [VStr ""] ;;;
  log_Printf ("Remote Address: %#v" +:+ LF) [VStr remoteIP] ;;;
  if denied (limit lrt) remoteIP then
    log_Println [VStr ""] ;;;
    log_Printf ("Denying request for [%s]" +:+ LF) [VStr remoteIP] ;;;
    ret (Ok forbidden)
  else
    log_Printf ("Forwarding to: %s" +:+ LF) [VStr (url_String (req_URL request))] ;;;
    r <- RoundTrip (transport lrt) request ;;
    relay_response r.

#[export] Instance LoggingRoundTripper_RoundTripper {T} `{RoundTripper T} :
  RoundTripper (LoggingRoundTripper T) := LoggingRoundTripper_RoundTrip.

(** [NewProxy] (lines 66-101). *)
Definition NewProxy {T} (transport : T) (skipSslValidation : bool) : ReverseProxy T :=
  {| Director := director skipSslValidation; Transport := transport |}.

(** One request cycle of the reverse proxy, from the outbound copy of the
    request to the response of the transport stage: the director, the
    library's header bookkeeping, the transport. *)
Definition ServeHTTP {T} `{RoundTripper T} (p : ReverseProxy T)
    (outreq : Request) : M (GoResult Response) :=
  outreq <- Director p outreq ;;
  RoundTrip (Transport p) (set_req_Header outreq (proxy_Header outreq)).

(** ** What the stages write, as lists of events *)

(** The nine entries of [logRequest]. *)
Definition request_log (forwardedFOR forwardedURL sigHeader body : string)
    (headers : Header) (skipSslValidation : bool) : list Event :=
  [ EvLog (Printf "Skip ssl validation set to %t" [VBool skipSslValidation]);
    EvLog (Println [VStr "Received request: "]);
    EvLog (Printf ("%s: %s" +:+ LF) [VStr FORWARDED_FOR_HEADER; VStr forwardedFOR]);
    EvLog (Printf ("%s: %s" +:+ LF) [VStr CF_FORWARDED_URL_HEADER; VStr forwardedURL]);
    EvLog (Printf ("%s: %s" +:+ LF) [VStr CF_PROXY_SIGNATURE_HEADER; VStr sigHeader]);
    EvLog (Println [VStr ""]);
    EvLog (Printf ("Headers: %#v" +:+ LF) [VHeader headers]);
    EvLog (Println [VStr ""]);
    EvLog (Printf ("Request Body: %s" +:+ LF) [VStr body]) ].

(** What [sleep] does under the configuration of the platform: its events
    and the error it returns. *)
Definition delay_events : list Event :=
  let sleepMilliString := os_Getenv "ROUTE_SERVICE_SLEEP_MILLI" in
  if String.eqb sleepMilliString "" then []
  else match strconv_ParseInt sleepMilliString 0 64 with
       | Ok sleepMilli =>
           [ EvLog (Printf ("Sleeping for %d milliseconds" +:+ LF) [VInt sleepMilli]);
             EvSleep (Duration_Milliseconds sleepMilli) ]
       | Err _ => []
       end.

Definition delay_error : option error :=
  let sleepMilliString := os_Getenv "ROUTE_SERVICE_SLEEP_MILLI" in
  if String.eqb sleepMilliString "" then None
  else match strconv_ParseInt sleepMilliString 0 64 with
       | Ok _ => None
       | Err err => Some err
       end.

(** The bytes of a request body that reads without error (none for a nil
    body), and the error it reads with otherwise. *)
Definition body_bytes (req : Request) : list Byte.byte :=
  match req_Body req with
  | Some r => fst (ioutil_ReadAll r)
  | None => []
  end.

Definition body_error (req : Request) : option error :=
  match req_Body req with
  | Some r => snd (ioutil_ReadAll r)
  | None => None
  end.

(** The request with its body buffered: a nil body stays nil. *)
Definition rebuffered (req : Request) : Request :=
  match req_Body req with
  | Some r => set_req_Body req (Some (bytes_NewBuffer (body_bytes req)))
  | None => req
  end.

(** The entries [RoundTrip] writes before it decides, on denial, before the
    outbound call, and after a response that read well. *)
Definition decision_log (remoteIP : string) : list Event :=
  [ EvLog (Println [VStr ""]);
    EvLog (Printf ("Remote Address: %#v" +:+ LF) [VStr remoteIP]) ].

Definition deny_log (remoteIP : string) : list Event :=
  [ EvLog (Println [VStr ""]);
    EvLog (Printf ("Denying request for [%s]" +:+ LF) [VStr remoteIP]) ].

Definition forward_log (request : Request) : list Event :=
  [ EvLog (Printf ("Forwarding to: %s" +:+ LF) [VStr (url_String (req_URL request))]) ].

Definition response_log (res : Response) (body : list Byte.byte) : list Event :=
  [ EvLog (Println [VStr ""]);
    EvLog (Printf ("Response Headers: %#v" +:+ LF) [VHeader (res_Header res)]);
    EvLog (Println [VStr ""]);
    EvLog (Printf ("Response Body: %s" +:+ LF) [VStr (string_of_bytes body)]);
    EvLog (Println [VStr ""]);
    EvLog (Println [VStr "Sending response to GoRouter..."]) ].

(** What [RoundTrip] returns for an answer of the underlying transport. *)
Definition relayed (r : GoResult Response) : Outcome (GoResult Response) :=
  match r with
  | Err err => Done (Err err)
  | Ok res =>
      match ioutil_ReadAll (res_Body res) with
      | (_, Some _) => Exit 1
      | (body, None) => Done (Ok (set_res_Body res (bytes_NewBuffer body)))
      end
  end.

End Program.

(** ** Reading a trace *)

(** [has_substring sub s]: [sub] occurs somewhere in [s]. *)
Fixpoint has_substring (sub s : string) : bool :=
  match s with
  | EmptyString => String.prefix sub ""
  | String _ s' => String.prefix sub s || has_substring sub s'
  end.

(** The entry [logRequest] writes for the forwarding header [name]. *)
Definition is_header_log (name : string) (e : Event) : bool :=
  match e with
  | EvLog (Printf f [VStr k; VStr _]) =>
      String.eqb f ("%s: %s" +:+ LF) && String.eqb k name
  | _ => false
  end.

Definition is_body_log (e : Event) : bool :=
  match e with
  | EvLog (Printf f [VStr _]) => String.eqb f ("Request Body: %s" +:+ LF)
  | _ => false
  end.

(** The entry [RoundTrip] writes once it has the claimed address, right
    before it decides. *)
Definition is_decision_log (e : Event) : bool :=
  match e with
  | EvLog (Printf f [VStr _]) => String.eqb f ("Remote Address: %#v" +:+ LF)
  | _ => false
  end.

Definition is_deny_log (e : Event) : bool :=
  match e with
  | EvLog (Printf f [VStr _]) => String.eqb f ("Denying request for [%s]" +:+ LF)
  | _ => false
  end.

Definition is_sleep (e : Event) : bool :=
  match e with EvSleep _ => true | _ => false end.

Definition is_rewrite (e : Event) : bool :=
  match e with EvRewrite _ => true | _ => false end.

Definition is_network (e : Event) : bool :=
  match e with EvNetwork _ => true | _ => false end.

(** The entries of the request log the order of a cycle is stated for: the
    three forwarding headers and the body. *)
Definition request_entries : list (Event -> bool) :=
  [ is_header_log FORWARDED_FOR_HEADER;
    is_header_log CF_FORWARDED_URL_HEADER;
    is_header_log CF_PROXY_SIGNATURE_HEADER;
    is_body_log ].

(** [precedes p q l]: wherever a [q] event stands in [l], a [p] event stands
    before it and none after it. *)
Definition precedes (p q : Event -> bool) (l : list Event) : Prop :=
  forall pre e post, l = pre ++ e :: post -> q e = true ->
    (exists e', e' ∈ pre /\ p e' = true) /\
    (forall e', e' ∈ post -> p e' = false).

(** [never_after p q l]: no [p] event stands after a [q] event. *)
Definition never_after (p q : Event -> bool) (l : list Event) : Prop :=
  forall pre e post, l = pre ++ e :: post -> q e = true ->
    forall e', e' ∈ post -> p e' = false.

(** The two orders as checks that run along the trace; [seen] tells whether
    a [p] event (for [precedesb]) was passed already. *)
Fixpoint precedesb (p q : Event -> bool) (seen : bool) (l : list Event) : bool :=
  match l with
  | [] => true
  | e :: l' =>
      (if q e then seen && negb (existsb p l') else true)
      && precedesb p q (seen || p e) l'
  end.

Fixpoint never_afterb (p q : Event -> bool) (l : list Event) : bool :=
  match l with
  | [] => true
  | e :: l' =>
      (if q e then negb (existsb p l') else true) && never_afterb p q l'
  end.

(** ** A platform to run the program on

    An instance of [Platform] for concrete runs, small on purpose.  On the
    inputs of the examples below its functions answer as the Go library
    does; they are not the library.  [demo_ParseInt] reads decimal numerals
    without a leading zero, with an optional sign, and rejects everything
    else (Go reads some of the rest in other bases).  [demo_url_Parse] takes
    the empty string for the zero URL, reads [http://host/path?query],
    rejects control characters (with the inner error of Go, not wrapped),
    and takes anything else for a relative path.  The network answers 200
    with a fixed body unless the host is [down.internal].  The library
    bookkeeping sets an empty [User-Agent] where there is none; the requests
    of the examples carry no hop-by-hop header and no peer address. *)

Definition DQ : string := String (Ascii.ascii_of_nat 34) EmptyString.

Definition digit_of (c : Ascii.ascii) : option Z :=
  let n := Z.of_nat (Ascii.nat_of_ascii c) in
  if (48 <=? n) && (n <=? 57) then Some (n - 48) else None.

Fixpoint parse_digits (acc : Z) (s : string) : option Z :=
  match s with
  | EmptyString => Some acc
  | String c s' =>
      match digit_of c with
      | Some d => parse_digits (10 * acc + d) s'
      | None => None
      end
  end.

Definition demo_ParseInt (s : string) (base bitSize : Z) : GoResult Z :=
  let syntax := Err ("strconv.ParseInt: parsing " +:+ DQ +:+ s +:+ DQ +:+ ": invalid syntax") in
  let range := Err ("strconv.ParseInt: parsing " +:+ DQ +:+ s +:+ DQ +:+ ": value out of range") in
  let unsigned (neg : bool) (ds : string) :=
    match ds with
    | EmptyString => syntax
    | String c ds' =>
        if String.eqb (String c "") "0" && negb (String.eqb ds' "") then syntax
        else match parse_digits 0 ds with
             | None => syntax
             | Some n =>
                 let v := if neg then - n else n in
                 if (- 2 ^ 63 <=? v) && (v <? 2 ^ 63) then Ok v else range
             end
    end in
  match s with
  | EmptyString => syntax
  | String c s' =>
      if String.eqb (String c "") "-" then unsigned true s'
      else if String.eqb (String c "") "+" then unsigned false s'
      else unsigned false s
  end.

Definition is_control (c : Ascii.ascii) : bool :=
  let n := Ascii.nat_of_ascii c in
  Nat.ltb n 32 || Nat.eqb n 127.

Fixpoint cut_at (sep : Ascii.ascii) (s : string) : string * option string :=
  match s with
  | EmptyString => ("", None)
  | String c s' =>
      if Ascii.eqb c sep then ("", Some s')
      else let (a, b) := cut_at sep s' in (String c a, b)
  end.

Definition demo_url_Parse (s : string) : GoResult URL :=
  if existsb is_control (String.list_ascii_of_string s) then
    Err "net/url: invalid control character in URL"
  else
    let (s, frag) := cut_at "#"%char s in
    let (rest, query) := cut_at "?"%char s in
    if String.prefix "http://" rest then
      let (host, path) := cut_at "/"%char (String.substring 7 (String.length rest - 7) rest) in
      Ok {| Scheme := "http"; Opaque := ""; Host := host;
            Path := match path with Some p => "/" +:+ p | None => "" end;
            RawPath := ""; RawQuery := default "" query;
            Fragment := default "" frag |}
    else
      Ok {| Scheme := ""; Opaque := ""; Host := ""; Path := rest; RawPath := "";
            RawQuery := default "" query; Fragment := default "" frag |}.

Definition demo_url_String (u : URL) : string :=
  (if String.eqb (Scheme u) "" then "" else Scheme u +:+ "://") +:+ Host u +:+ Path u
  +:+ (if String.eqb (RawQuery u) "" then "" else "?" +:+ RawQuery u).

Definition demo_response : Response :=
  {| res_Status := "200 OK"; res_StatusCode := 200;
     res_Header := {[ "Content-Type" := ["text/plain"] ]};
     res_Body := bytes_NewBufferString "pong" |}.

Definition demo_network (skip : bool) (req : Request) : GoResult Response :=
  if String.eqb (Host (req_URL req)) "down.internal"
  then Err "dial tcp: connection refused"
  else Ok demo_response.

Definition demo_proxy_Header (req : Request) : Header :=
  match req_Header req !! "User-Agent" with
  | Some _ => req_Header req
  | None => <["User-Agent" := [""]]> (req_Header req)
  end.

(** The platform whose [ROUTE_SERVICE_SLEEP_MILLI] is [delay]. *)
Definition demo_platform (delay : string) : Platform :=
  {| os_Getenv := fun k => if String.eqb k "ROUTE_SERVICE_SLEEP_MILLI" then delay else "";
     strconv_ParseInt := demo_ParseInt;
     url_Parse := demo_url_Parse;
     url_String := demo_url_String;
     network := demo_network;
     proxy_Header := demo_proxy_Header |}.

(** A POST request as the router delivers it. *)
Definition demo_request (forwardedFor forwardedURL : string) (body : option Reader) : Request :=
  {| req_Method := "POST";
     req_URL := {| Scheme := ""; Opaque := ""; Host := ""; Path := "/";
                   RawPath := ""; RawQuery := ""; Fragment := "" |};
     req_Proto := "HTTP/1.1";
     req_Header := {[ FORWARDED_FOR_HEADER := [forwardedFor];
                      CF_FORWARDED_URL_HEADER := [forwardedURL];
                      CF_PROXY_SIGNATURE_HEADER := ["c2ln"] ]};
     req_Body := body;
     req_ContentLength := 4;
     req_Host := "route-service.example";
     req_RemoteAddr := "" |}.

Definition demo_proxy (delay : string) (accessList : list string) (skip : bool)
  : ReverseProxy (LoggingRoundTripper http_Transport) :=
  NewProxy (P := demo_platform delay) (NewLoggingRoundTripper accessList skip) skip.

(** One cycle on the demo platform, from an empty trace. *)
Definition demo_serve (delay : string) (accessList : list string) (skip : bool)
    (req : Request) : Outcome (GoResult Response) * list Event :=
  let P := demo_platform delay in
  ServeHTTP (H := LoggingRoundTripper_RoundTripper (H := http_Transport_RoundTrip))
    (demo_proxy delay accessList skip) req [].

(** The transport stage alone on the demo platform. *)
Definition demo_RoundTrip (delay : string) (accessList : list string) (skip : bool)
    (request : Request) (tr : list Event) : Outcome (GoResult Response) * list Event :=
  let P := demo_platform delay in
  RoundTrip (RoundTripper := LoggingRoundTripper_RoundTripper (H := http_Transport_RoundTrip))
    (NewLoggingRoundTripper accessList skip) request tr.

(** Requests of the examples. *)
Definition ping_request : Request :=
  demo_request "1.2.3.4, 5.6.7.8" "http://backend.internal/path?x=1"
               (Some (bytes_NewBufferString "ping")).

Definition stranger_request : Request :=
  demo_request "10.0.0.2" "http://backend.internal/path?x=1" None.

Definition no_space_request : Request :=
  demo_request "1.2.3.4,5.6.7.8" "http://backend.internal/path?x=1" None.

Definition bad_url_request : Request :=
  demo_request "1.2.3.4" ("http://backend.internal/" +:+ LF) None.

Definition empty_url_request : Request :=
  demo_request "1.2.3.4" "" None.

(** ** [main]: the configuration read at start

    The part of [main] in front of [http.ListenAndServe] (lines 25-62): the
    allow-list built from [ACCESS_LIST], the port, the TLS flag, and the
    proxy made of them.  The file calls [net.LookupHost] without importing
    [net]; the call is read as written, and the resolver is a parameter. *)

(** [regexp.MustCompile(`^[0-9.]+$`).MatchString]: a non-empty text of
    digits and dots. *)
Definition is_digit_or_dot (c : ascii) : bool :=
  let n := nat_of_ascii c in
  (Nat.leb 48 n && Nat.leb n 57) || Nat.eqb n 46.

Definition isIP (s : string) : bool :=
  negb (String.eqb s "") && forallb is_digit_or_dot (String.list_ascii_of_string s).

(** [strings.Count] with a non-empty [substr]: the occurrences met by the
    scan of [split_from], which do not overlap. *)
Fixpoint count_from (sep : string) (skip : nat) (s : string) : nat :=
  match s with
  | EmptyString => 0
  | String c s' =>
      match skip with
      | S k => count_from sep k s'
      | O =>
          if String.prefix sep s
          then S (count_from sep (String.length sep - 1) s')
          else count_from sep 0 s'
      end
  end.

(** With an empty [substr] Go counts the characters and adds one; the
    program never does that, and the model counts bytes. *)
Definition strings_Count (s substr : string) : nat :=
  match substr with
  | EmptyString => S (String.length s)
  | _ => count_from substr 0 s
  end.

(** The condition of line 42: the entry is handed to the resolver. *)
Definition needs_lookup (v : string) : bool :=
  negb (isIP v) || negb (Nat.eqb (strings_Count v ".") 3).

(** [strconv.ParseBool]. *)
Definition strconv_ParseBool (str : string) : GoResult bool :=
  if existsb (String.eqb str) ["1"; "t"; "T"; "true"; "TRUE"; "True"] then Ok true
  else if existsb (String.eqb str) ["0"; "f"; "F"; "false"; "FALSE"; "False"] then Ok false
  else Err ("strconv.ParseBool: parsing " +:+ DQ +:+ str +:+ DQ +:+ ": invalid syntax").

(** The conversion [string(k)] of an integer: the UTF-8 form of the code
    point, and of U+FFFD for a surrogate or a number past the last code
    point. *)
Definition string_of_rune (k : N) : string :=
  let b (n : N) := String (ascii_of_N n) "" in
  let replacement := b 239%N +:+ b 191%N +:+ b 189%N in
  if (k <? 128)%N then b k
  else if (k <? 2048)%N then b (192 + k / 64)%N +:+ b (128 + k mod 64)%N
  else if ((55296 <=? k) && (k <=? 57343))%N then replacement
  else if (k <? 65536)%N then
    b (224 + k / 4096)%N +:+ b (128 + (k / 64) mod 64)%N +:+ b (128 + k mod 64)%N
  else if (k <=? 1114111)%N then
    b (240 + k / 262144)%N +:+ b (128 + (k / 4096) mod 64)%N
    +:+ b (128 + (k / 64) mod 64)%N +:+ b (128 + k mod 64)%N
  else replacement.

(** An [error] handed to [log.Printf]: its text, and what Go prints for
    [nil]. *)
Definition error_text (err : option error) : string :=
  default "<nil>" err.

Section Main.
Context {P : Platform}.

(** [net.LookupHost]: the addresses found and the error, as Go returns the
    two side by side. *)
Variable net_LookupHost : string -> list string * option error.

(** The inner loop (lines 46-49), from index [k] on. *)
Fixpoint append_addrs (k : N) (addr : list string) (access_list : list string)
  : M (list string) :=
  match addr with
  | [] => ret access_list
  | a :: addr' =>
      log_Printf ("IP " +:+ string_of_rune k +:+ ": " +:+ a) [] ;;;
      append_addrs (k + 1)%N addr' (access_list ++ [a])
  end.

(** The outer loop (lines 41-51).  [range] reads the slice once, before
    the first turn: [tokens] is the list as split, [access_list] the one
    that grows. *)
Fixpoint resolve_range (tokens : list string) (access_list : list string)
  : M (list string) :=
  match tokens with
  | [] => ret access_list
  | v :: tokens' =>
      if needs_lookup v then
        log_Printf ("Resolving ip for: [%d]" +:+ LF) [VStr v] ;;;
        let addr := fst (net_LookupHost v) in
        let err := snd (net_LookupHost v) in
        log_Printf "Error ? " [VStr (error_text err)] ;;;
        access_list <- append_addrs 0%N addr access_list ;;
        resolve_range tokens' access_list
      else resolve_range tokens' access_list
  end.

(** Lines 35-52. *)
Definition main_access_list : M (list string) :=
  let env_limit := os_Getenv "ACCESS_LIST" in
  if negb (Nat.eqb (String.length env_limit) 0) then
    log_Printf ("Limiting ip access to: [%d]" +:+ LF) [VStr env_limit] ;;;
    let access_list := strings_Split env_limit " " in
    resolve_range access_list access_list
  else ret [].

(** Lines 53-55. *)
Definition main_port : string :=
  let port := os_Getenv "PORT" in
  if Nat.eqb (String.length port) 0 then DEFAULT_PORT else port.

(** Lines 56-58. *)
Definition main_skipSslValidation : bool :=
  match strconv_ParseBool (os_Getenv "SKIP_SSL_VALIDATION") with
  | Ok b => b
  | Err _ => true
  end.

(** [main] up to the call of [http.ListenAndServe]: the address to listen
    on and the handler. *)
Definition main_setup : M (string * ReverseProxy (LoggingRoundTripper http_Transport)) :=
  access_list <- main_access_list ;;
  let port := main_port in
  let skipSslValidation := main_skipSslValidation in
  let roundTripper := NewLoggingRoundTripper access_list skipSslValidation in
  let proxy := NewProxy roundTripper skipSslValidation in
  ret (":" +:+ port, proxy).

End Main.

(** The entries of a split put together again, the separator in between. *)
Fixpoint joined (sep : string) (l : list string) : string :=
  match l with
  | [] => ""
  | [x] => x
  | x :: l' => x +:+ sep +:+ joined sep l'
  end.

(** The addresses the resolver gives for the entries handed to it, in the
    order of the entries. *)
Definition resolved (net_LookupHost : string -> list string * option error)
    (tokens : list string) : list string :=
  flat_map (fun v => if needs_lookup v then fst (net_LookupHost v) else []) tokens.

(** The names a trace shows handed to the resolver, in order. *)
Definition lookups (l : list Event) : list string :=
  omap (fun e =>
          match e with
          | EvLog (Printf f [VStr v]) =>
              if String.eqb f ("Resolving ip for: [%d]" +:+ LF) then Some v else None
          | _ => None
          end) l.

(** A platform with a whole environment, otherwise the demo one, and a
    resolver that knows one name. *)
Definition env_platform (env : string -> string) : Platform :=
  {| os_Getenv := env;
     strconv_ParseInt := demo_ParseInt;
     url_Parse := demo_url_Parse;
     url_String := demo_url_String;
     network := demo_network;
     proxy_Header := demo_proxy_Header |}.

Definition demo_env (access_list port skip : string) (k : string) : string :=
  if String.eqb k "ACCESS_LIST" then access_list
  else if String.eqb k "PORT" then port
  else if String.eqb k "SKIP_SSL_VALIDATION" then skip
  else "".

Definition demo_LookupHost (host : string) : list string * option error :=
  if String.eqb host "backend.internal" then (["10.1.1.1"; "10.1.1.2"], None)
  else ([], Some ("lookup " +:+ host +:+ ": no such host")).

(** The demo platform behind an upstream whose response breaks off while
    it is read. *)
Definition broken_response : Response :=
  {| res_Status := "200 OK"; res_StatusCode := 200; res_Header := ∅;
     res_Body := {| rd_buf := String.list_byte_of_string "po"; rd_off := 0%nat;
                    rd_err := Some "unexpected EOF" |} |}.

Definition broken_platform : Platform :=
  {| os_Getenv := fun _ => "";
     strconv_ParseInt := demo_ParseInt;
     url_Parse := demo_url_Parse;
     url_String := demo_url_String;
     network := fun _ _ => Ok broken_response;
     proxy_Header := demo_proxy_Header |}.

(** A request to the host that is down, and one whose body breaks off. *)
Definition down_request : Request :=
  set_req_URL stranger_request
    {| Scheme := "http"; Opaque := ""; Host := "down.internal"; Path := "/";
       RawPath := ""; RawQuery := ""; Fragment := "" |}.

Definition cut_off_request : Request :=
  demo_request "1.2.3.4" "http://backend.internal/path?x=1"
    (Some {| rd_buf := String.list_byte_of_string "pi"; rd_off := 0%nat;
             rd_err := Some "unexpected EOF" |}).

(** [ACCESS_LIST] has an empty entry: it starts or ends with a space, or has
    two in a row. *)
Definition has_blank_entry (env_limit : string) : Prop :=
  String.prefix " " env_limit = true \/
  has_substring "  " env_limit = true \/
  exists s, env_limit = s +:+ " ".

(** The platform with another delay setting and another [strconv.ParseInt],
    everything else as it is. *)
Definition with_delay_setting (P : Platform) (delay : string)
    (parse : string -> Z -> Z -> GoResult Z) : Platform :=
  {| os_Getenv := fun k =>
       if String.eqb k "ROUTE_SERVICE_SLEEP_MILLI" then delay else os_Getenv k;
     strconv_ParseInt := parse;
     url_Parse := url_Parse;
     url_String := url_String;
     network := network;
     proxy_Header := proxy_Header |}.

(** * Properties *)

(** ** Strings *)

Lemma append_cons (c : ascii) (a b : string) :
  String c a +:+ b = String c (a +:+ b).
Proof. reflexivity. Qed.

Lemma append_empty_l (b : string) : "" +:+ b = b.
Proof. reflexivity. Qed.

Lemma append_empty_r (s : string) : s +:+ "" = s.
Proof.
  induction s as [|c s IH]; [reflexivity|].
  now rewrite append_cons, IH.
Qed.

Lemma append_assoc (a b c : string) : (a +:+ b) +:+ c = a +:+ (b +:+ c).
Proof.
  induction a as [|x a IH]; [reflexivity|].
  now rewrite !append_cons, IH.
Qed.

Lemma prefix_append (a b : string) : String.prefix a (a +:+ b) = true.
Proof.
  induction a as [|x a IH].
  - now destruct b.
  - rewrite append_cons. simpl.
    destruct (ascii_dec x x) as [_|ne]; [exact IH | now elim ne].
Qed.

Lemma prefix_inv (a s : string) :
  String.prefix a s = true -> exists b, s = a +:+ b.
Proof.
  revert s; induction a as [|x a IH]; intros s Hp.
  - now exists s.
  - destruct s as [|y s]; simpl in Hp; [discriminate|].
    destruct (ascii_dec x y) as [->|]; [|discriminate].
    destruct (IH _ Hp) as [b ->]. now exists b.
Qed.

Lemma prefix_extend (a x r : string) :
  String.prefix a x = true -> String.prefix a (x +:+ r) = true.
Proof.
  intros Hp. destruct (prefix_inv _ _ Hp) as [b ->].
  rewrite append_assoc. apply prefix_append.
Qed.

Lemma prefix_empty_false (sep : string) : sep <> "" -> String.prefix sep "" = false.
Proof. now destruct sep. Qed.

(** ** [strings.Split] *)

(** The first entry is the part of the string in front of the leftmost
    separator: the rest is empty or starts with the separator, and the
    separator does not occur inside the entry. *)
Lemma split_from_head (sep s : string) :
  sep <> "" ->
  forall cur, exists x r tl,
    split_from sep 0 cur s = (cur +:+ x) :: tl /\
    s = x +:+ r /\
    (r = "" /\ tl = [] \/ String.prefix sep r = true) /\
    has_substring sep x = false.
Proof.
  intros Hsep. induction s as [|c s IH]; intros cur.
  - exists "", "", []. rewrite append_empty_r. simpl.
    repeat split; auto; now destruct sep.
  - cbn [split_from]. destruct (String.prefix sep (String c s)) eqn:Hp.
    + exists "", (String c s), (split_from sep (String.length sep - 1) "" s).
      rewrite append_empty_r. simpl. repeat split; auto; now destruct sep.
    + destruct (IH (cur +:+ String c "")) as (x & r & tl & Heq & Hs & Hr & Hx).
      exists (String c x), r, tl. rewrite Heq, append_assoc, !append_cons, append_empty_l.
      repeat split; auto.
      * now rewrite Hs.
      * cbn [has_substring]. rewrite Hx, orb_false_r.
        destruct (String.prefix sep (String c x)) eqn:Hpx; [|reflexivity].
        apply (prefix_extend _ _ r) in Hpx. rewrite append_cons, <- Hs in Hpx.
        congruence.
Qed.

(** Without any separator in it the string is the one entry. *)
Lemma split_from_whole (sep s : string) :
  has_substring sep s = false -> forall cur, split_from sep 0 cur s = [cur +:+ s].
Proof.
  induction s as [|c s IH]; intros Hn cur.
  - simpl. now rewrite append_empty_r.
  - cbn [has_substring] in Hn. apply orb_false_iff in Hn as [Hp Hn].
    cbn [split_from]. rewrite Hp, (IH Hn), append_assoc. reflexivity.
Qed.

(** [Split] never returns an empty slice, so taking element 0 is safe. *)
Lemma strings_Split_cons (s : string) :
  exists x tl, strings_Split s ", " = x :: tl /\ first_entry s = x.
Proof.
  unfold first_entry, strings_Split.
  destruct (split_from_head ", " s ltac:(discriminate) "") as (x & r & tl & Heq & _).
  exists x, tl. now rewrite Heq.
Qed.

Lemma first_entry_prefix (forwardedFOR : string) :
  exists rest,
    forwardedFOR = first_entry forwardedFOR +:+ rest /\
    (rest = "" \/ String.prefix ", " rest = true) /\
    has_substring ", " (first_entry forwardedFOR) = false.
Proof.
  unfold first_entry, strings_Split.
  destruct (split_from_head ", " forwardedFOR ltac:(discriminate) "")
    as (x & r & tl & Heq & Hs & Hr & Hx).
  rewrite Heq, append_empty_l. exists r. intuition.
Qed.

Lemma first_entry_whole (forwardedFOR : string) :
  has_substring ", " forwardedFOR = false -> first_entry forwardedFOR = forwardedFOR.
Proof.
  intros Hn. unfold first_entry, strings_Split.
  now rewrite (split_from_whole _ _ Hn).
Qed.

(** ** [contains] is membership by equality of strings *)

Lemma contains_spec (s : list string) (e : string) :
  contains s e = true <-> e ∈ s.
Proof.
  induction s as [|a s IH]; simpl.
  - split; [discriminate | intros Hin; inversion Hin].
  - destruct (String.eqb a e) eqn:Heq.
    + apply String.eqb_eq in Heq as ->. split; [constructor | reflexivity].
    + apply String.eqb_neq in Heq. rewrite IH. split.
      * now constructor.
      * intros Hin. inversion Hin; subst; [congruence | assumption].
Qed.

Lemma denied_spec (limit : list string) (remoteIP : string) :
  denied limit remoteIP = true <-> limit <> [] /\ remoteIP ∉ limit.
Proof.
  unfold denied. rewrite andb_true_iff, negb_true_iff, <- not_true_iff_false, contains_spec.
  destruct limit; simpl; intuition; try discriminate. 
Qed.

(** ** Checks along a trace *)

Lemma existsb_false_elem (p : Event -> bool) (l : list Event) :
  existsb p l = false -> forall e, e ∈ l -> p e = false.
Proof.
  intros Hex e He. apply not_true_iff_false. intros Hp.
  apply list_elem_of_In in He.
  assert (Ht : existsb p l = true) by (apply existsb_exists; eauto).
  congruence.
Qed.

Lemma precedesb_sound (p q : Event -> bool) (l : list Event) :
  forall seen, precedesb p q seen l = true ->
  forall pre e post, l = pre ++ e :: post -> q e = true ->
    (seen = true \/ exists e', e' ∈ pre /\ p e' = true) /\
    (forall e', e' ∈ post -> p e' = false).
Proof.
  induction l as [|a l IH]; intros seen Hb pre e post Heq Hq.
  - now destruct pre.
  - cbn [precedesb] in Hb. apply andb_true_iff in Hb as [Hhere Hrest].
    destruct pre as [|b pre]; simpl in Heq; injection Heq as -> ->.
    + rewrite Hq in Hhere. apply andb_true_iff in Hhere as [Hs Hex].
      apply negb_true_iff in Hex. split; [now left|].
      now apply existsb_false_elem.
    + destruct (IH _ Hrest pre e post eq_refl Hq) as [Hseen Hpost].
      split; [|exact Hpost].
      destruct Hseen as [Hs|(e' & He' & Hp)].
      * apply orb_true_iff in Hs as [Hs|Hs]; [now left|].
        right. exists b. split; [constructor | exact Hs].
      * right. exists e'. split; [now constructor | exact Hp].
Qed.

Lemma precedes_check (p q : Event -> bool) (l : list Event) :
  precedesb p q false l = true -> precedes p q l.
Proof.
  intros Hb pre e post Heq Hq.
  destruct (precedesb_sound p q l false Hb pre e post Heq Hq) as [[Hs|Hs] Hpost];
    [discriminate | now split].
Qed.

Lemma never_after_check (p q : Event -> bool) (l : list Event) :
  never_afterb p q l = true -> never_after p q l.
Proof.
  induction l as [|a l IH]; intros Hb pre e post Heq Hq.
  - now destruct pre.
  - cbn [never_afterb] in Hb. apply andb_true_iff in Hb as [Hhere Hrest].
    destruct pre as [|b pre]; simpl in Heq; injection Heq as -> ->.
    + rewrite Hq in Hhere. apply negb_true_iff in Hhere.
      now apply existsb_false_elem.
    + exact (IH Hrest pre e post eq_refl Hq).
Qed.

(** Membership of an event written out in a trace given by its parts. *)
Ltac elem_of_trace :=
  unfold request_log, response_log, decision_log, deny_log, forward_log;
  cbn [app];
  repeat first
    [ apply list_elem_of_here
    | apply list_elem_of_further
    | apply (proj2 (elem_of_app _ _ _)); right; cbn [app] ].

(** One case of a cycle: the events are written out, and every order is
    settled by running its check. *)
Ltac order_leaf :=
  eexists; split; [cbn [snd]; rewrite <- ?app_assoc; reflexivity|];
  split;
    [unfold request_entries;
     repeat (constructor; [split; apply precedes_check; reflexivity|]);
     constructor|];
  split; [apply never_after_check; reflexivity|];
  split;
    [intros Hne;
     first [ apply precedes_check; reflexivity
           | exfalso; apply Hne; apply String.eqb_eq; assumption ]|];
  split; [apply precedes_check; reflexivity|];
  split; [apply precedes_check; reflexivity|];
  split;
    [intros Hex;
     first [ match type of Hex with
             | ?a = true => assert (Hf : a = false) by reflexivity; congruence
             end
           | split; [reflexivity|];
             intros out tr1 Heq; injection Heq as <- <-; assumption ]
    |intros Hb e' He;
     first [ discriminate Hb
           | rewrite !elem_of_cons in He;
             destruct He as [->|[->|[->|[->|He]]]];
             [elem_of_trace..|inversion He] ]].

Section Cycle.
Context {P : Platform}.

(** ** Running the stages *)

Lemma log_Fatalln_run {A} (args : list Value) (tr : list Event) :
  log_Fatalln (A := A) args tr = (Exit 1, tr ++ [EvLog (Println args)]).
Proof. reflexivity. Qed.

Lemma logRequest_run (fwd url sig body : string) (h : Header) (skip : bool)
    (tr : list Event) :
  logRequest fwd url sig body h skip tr = (Done tt, tr ++ request_log fwd url sig body h skip).
Proof.
  unfold logRequest, request_log, log_Printf, log_Println, emit, bind.
  rewrite <- !app_assoc. reflexivity.
Qed.

Lemma sleep_run (tr : list Event) :
  sleep tr = (Done delay_error, tr ++ delay_events).
Proof.
  unfold sleep, delay_error, delay_events.
  destruct (String.eqb (os_Getenv "ROUTE_SERVICE_SLEEP_MILLI") ""); simpl.
  - unfold ret. now rewrite app_nil_r.
  - destruct (strconv_ParseInt _ 0 64); unfold ret.
    + unfold log_Printf, time_Sleep, emit, bind. now rewrite <- !app_assoc.
    + now rewrite app_nil_r.
Qed.

Lemma buffer_body_run (req : Request) (tr : list Event) :
  buffer_body req tr =
    match body_error req with
    | Some err => (Exit 1, tr ++ [EvLog (Println [VStr err])])
    | None => (Done (body_bytes req, rebuffered req), tr)
    end.
Proof.
  unfold buffer_body, body_error, rebuffered, body_bytes, ioutil_ReadAll.
  destruct (req_Body req) as [r|]; simpl; [|reflexivity].
  destruct (rd_err r); reflexivity.
Qed.

(** The director, case by case. *)
Lemma director_run (skip : bool) (req : Request) (tr : list Event) :
  let fwd := Header_Get (req_Header req) FORWARDED_FOR_HEADER in
  let url := Header_Get (req_Header req) CF_FORWARDED_URL_HEADER in
  let sig := Header_Get (req_Header req) CF_PROXY_SIGNATURE_HEADER in
  let logged := request_log fwd url sig (string_of_bytes (body_bytes req))
                            (req_Header req) skip in
  director skip req tr =
    match body_error req with
    | Some err => (Exit 1, tr ++ [EvLog (Println [VStr err])])
    | None =>
        match delay_error with
        | Some err =>
            (Exit 1, tr ++ logged ++ delay_events ++ [EvLog (Println [VStr err])])
        | None =>
            match url_Parse url with
            | Err err =>
                (Exit 1, tr ++ logged ++ delay_events ++ [EvLog (Println [VStr err])])
            | Ok u =>
                (Done (set_req_Host (set_req_URL (rebuffered req) u) (Host u)),
                 tr ++ logged ++ delay_events ++ [EvRewrite u])
            end
        end
    end.
Proof.
  intros fwd url sig logged. unfold director.
  unfold bind at 1. rewrite buffer_body_run.
  destruct (body_error req) as [e|]; [reflexivity|].
  cbn [fst snd].
  assert (Hh : req_Header (rebuffered req) = req_Header req).
  { unfold rebuffered. now destruct (req_Body req). }
  rewrite Hh. fold fwd url sig.
  unfold bind at 1. rewrite logRequest_run. fold logged.
  unfold bind at 1. rewrite sleep_run.
  destruct delay_error as [e|].
  - rewrite log_Fatalln_run, <- !app_assoc. reflexivity.
  - destruct (url_Parse url) as [u|e].
    + unfold bind, emit, ret. rewrite <- !app_assoc. reflexivity.
    + rewrite log_Fatalln_run, <- !app_assoc. reflexivity.
Qed.

(** A delay setting that does not parse leaves no delay event. *)
Lemma delay_error_events (err : error) :
  delay_error = Some err -> delay_events = [].
Proof.
  unfold delay_error, delay_events.
  destruct (String.eqb _ ""); [discriminate|].
  now destruct (strconv_ParseInt _ 0 64).
Qed.

(** The real transport makes the one call. *)
Lemma http_Transport_run (t : http_Transport) (request : Request) (tr : list Event) :
  RoundTrip t request tr =
    (Done (network (InsecureSkipVerify t) request), tr ++ [EvNetwork request]).
Proof. reflexivity. Qed.

Lemma relay_response_run (r : GoResult Response) (tr : list Event) :
  relay_response r tr =
    match r with
    | Err err => (Done (Err err), tr)
    | Ok res =>
        match ioutil_ReadAll (res_Body res) with
        | (_, Some err) => (Exit 1, tr ++ [EvLog (Println [VStr err])])
        | (body, None) =>
            (Done (Ok (set_res_Body res (bytes_NewBuffer body))),
             tr ++ response_log res body)
        end
    end.
Proof.
  destruct r as [res|e]; [|reflexivity].
  unfold relay_response, ioutil_ReadAll. destruct (rd_err (res_Body res)).
  - reflexivity.
  - unfold response_log, log_Printf, log_Println, emit, bind, ret.
    rewrite <- !app_assoc. reflexivity.
Qed.

(** The transport stage over any underlying round tripper. *)
Lemma RoundTrip_run {T} `{RoundTripper T} (lrt : LoggingRoundTripper T)
    (request : Request) (tr : list Event) :
  let remoteIP := first_entry (Header_Get (req_Header request) FORWARDED_FOR_HEADER) in
  RoundTrip lrt request tr =
    if denied (limit lrt) remoteIP
    then (Done (Ok forbidden), tr ++ decision_log remoteIP ++ deny_log remoteIP)
    else bind (RoundTrip (transport lrt) request) relay_response
              (tr ++ decision_log remoteIP ++ forward_log request).
Proof.
  intros remoteIP.
  unfold RoundTrip at 1, LoggingRoundTripper_RoundTripper, LoggingRoundTripper_RoundTrip.
  fold remoteIP. unfold log_Println, log_Printf.
  unfold bind at 1, emit at 1. unfold bind at 1, emit at 1.
  destruct (denied (limit lrt) remoteIP).
  - unfold bind, emit, ret, decision_log, deny_log. rewrite <- !app_assoc. reflexivity.
  - unfold bind at 1, emit at 1. unfold decision_log, forward_log.
    rewrite <- !app_assoc. reflexivity.
Qed.

(** The transport stage over the real transport, case by case. *)
Lemma RoundTrip_http_run (lrt : LoggingRoundTripper http_Transport)
    (request : Request) (tr : list Event) :
  let remoteIP := first_entry (Header_Get (req_Header request) FORWARDED_FOR_HEADER) in
  let sent := decision_log remoteIP ++ forward_log request ++ [EvNetwork request] in
  RoundTrip lrt request tr =
    if denied (limit lrt) remoteIP
    then (Done (Ok forbidden), tr ++ decision_log remoteIP ++ deny_log remoteIP)
    else
      match network (InsecureSkipVerify (transport lrt)) request with
      | Err err => (Done (Err err), tr ++ sent)
      | Ok res =>
          match rd_err (res_Body res) with
          | Some err => (Exit 1, tr ++ sent ++ [EvLog (Println [VStr err])])
          | None =>
              let body := fst (ioutil_ReadAll (res_Body res)) in
              (Done (Ok (set_res_Body res (bytes_NewBuffer body))),
               tr ++ sent ++ response_log res body)
          end
      end.
Proof.
  intros remoteIP sent. rewrite RoundTrip_run. fold remoteIP.
  destruct (denied (limit lrt) remoteIP); [reflexivity|].
  unfold bind. rewrite http_Transport_run, relay_response_run.
  unfold sent. destruct (network _ request) as [res|e].
  - unfold ioutil_ReadAll. cbn [fst]. destruct (rd_err (res_Body res));
      rewrite <- !app_assoc; reflexivity.
  - rewrite <- !app_assoc. reflexivity.
Qed.

(** The allowed branch over the real transport: the three entries, the
    outbound call with the request as received, and the relayed answer. *)
Lemma RoundTrip_allowed (lrt : LoggingRoundTripper http_Transport)
    (request : Request) (tr : list Event) :
  let remoteIP := first_entry (Header_Get (req_Header request) FORWARDED_FOR_HEADER) in
  denied (limit lrt) remoteIP = false ->
  exists after,
    RoundTrip lrt request tr =
      (relayed (network (InsecureSkipVerify (transport lrt)) request),
       tr ++ decision_log remoteIP ++ forward_log request ++ EvNetwork request :: after) /\
    (forall e, e ∈ decision_log remoteIP ++ forward_log request ++ after ->
               is_deny_log e = false /\ is_network e = false).
Proof.
  intros remoteIP Hd. rewrite RoundTrip_http_run. fold remoteIP. rewrite Hd.
  unfold relayed, ioutil_ReadAll.
  assert (Hlogs : forall l,
            existsb (fun e => is_deny_log e || is_network e)
                    (decision_log remoteIP ++ forward_log request ++ l) = false ->
            forall e, e ∈ decision_log remoteIP ++ forward_log request ++ l ->
            is_deny_log e = false /\ is_network e = false).
  { intros l Hl e He. apply orb_false_iff.
    exact (existsb_false_elem _ _ Hl e He). }
  destruct (network _ request) as [res|e].
  - cbn [fst]. destruct (rd_err (res_Body res)) as [e|]; eexists;
      (split; [rewrite <- ?app_assoc; reflexivity | apply Hlogs; reflexivity]).
  - exists []. split; [rewrite <- ?app_assoc; reflexivity | apply Hlogs; reflexivity].
Qed.

(** ** The access decision *)

(** C1: when the allow-list is not empty and the claimed address is not on
    it, [RoundTrip] returns, without an error, a response with status 403,
    the body [Forbidden] and no header; what it does is write four log
    entries, whatever the underlying transport is: the transport is not
    called. *)
Theorem deny_returns_forbidden {T} `{RoundTripper T} (lrt : LoggingRoundTripper T)
    (request : Request) (tr : list Event) :
  limit lrt <> [] ->
  first_entry (Header_Get (req_Header request) FORWARDED_FOR_HEADER) ∉ limit lrt ->
  exists resp emitted,
    RoundTrip lrt request tr = (Done (Ok resp), tr ++ emitted) /\
    res_StatusCode resp = 403 /\
    ioutil_ReadAll (res_Body resp) = (String.list_byte_of_string "Forbidden", None) /\
    string_of_bytes (fst (ioutil_ReadAll (res_Body resp))) = "Forbidden" /\
    res_Header resp = ∅ /\
    res_Status resp = "" /\
    emitted =
      (let remoteIP := first_entry (Header_Get (req_Header request) FORWARDED_FOR_HEADER) in
       decision_log remoteIP ++ deny_log remoteIP) /\
    (forall e, e ∈ emitted -> is_network e = false).
Proof.
  intros Hne Hnot.
  assert (Hd := proj2 (denied_spec _ _) (conj Hne Hnot)).
  exists forbidden. eexists. rewrite RoundTrip_run, Hd.
  do 7 (split; [reflexivity|]).
  apply existsb_false_elem. reflexivity.
Qed.

(** C2: with an empty allow-list the condition of denial is false for every
    request, whatever address it claims: [RoundTrip] calls the underlying
    transport with the request and relays its answer. *)
Theorem empty_allow_list_forwards (lrt : LoggingRoundTripper http_Transport)
    (request : Request) (tr : list Event) :
  limit lrt = [] ->
  (forall remoteIP, denied (limit lrt) remoteIP = false) /\
  exists after,
    RoundTrip lrt request tr =
      (relayed (network (InsecureSkipVerify (transport lrt)) request),
       tr ++ decision_log (first_entry (Header_Get (req_Header request) FORWARDED_FOR_HEADER))
          ++ forward_log request ++ EvNetwork request :: after) /\
    (forall e,
       e ∈ decision_log (first_entry (Header_Get (req_Header request) FORWARDED_FOR_HEADER))
           ++ forward_log request ++ after ->
       is_deny_log e = false /\ is_network e = false).
Proof.
  intros Hl. split.
  - intros ip. unfold denied. now rewrite Hl.
  - apply RoundTrip_allowed. unfold denied. now rewrite Hl.
Qed.

(** C3: the address the decision is taken on is the first entry of the
    [X-Forwarded-For] value split at comma-space: the part in front of the
    leftmost comma-space (the whole value when there is none, the empty
    string for an empty value); the request is forwarded when the allow-list
    is empty or holds exactly that string, and denied otherwise; the chain
    [1.2.3.4, 5.6.7.8] is let through by the list of [1.2.3.4] alone. *)
Theorem first_entry_decides (lrt : LoggingRoundTripper http_Transport)
    (request : Request) (tr : list Event) :
  let forwardedFOR := Header_Get (req_Header request) FORWARDED_FOR_HEADER in
  let remoteIP := first_entry forwardedFOR in
  let forwarded :=
    exists after,
      RoundTrip lrt request tr =
        (relayed (network (InsecureSkipVerify (transport lrt)) request),
         tr ++ decision_log remoteIP ++ forward_log request ++ EvNetwork request :: after) in
  first_entry "" = "" /\
  (exists rest,
     forwardedFOR = remoteIP +:+ rest /\
     (rest = "" \/ String.prefix ", " rest = true) /\
     has_substring ", " remoteIP = false) /\
  (forall l e, contains l e = true <-> e ∈ l) /\
  (limit lrt = [] \/ remoteIP ∈ limit lrt -> forwarded) /\
  (limit lrt <> [] /\ remoteIP ∉ limit lrt ->
     RoundTrip lrt request tr =
       (Done (Ok forbidden), tr ++ decision_log remoteIP ++ deny_log remoteIP)) /\
  (forwardedFOR = "1.2.3.4, 5.6.7.8" -> limit lrt = ["1.2.3.4"] -> forwarded).
Proof.
  intros forwardedFOR remoteIP forwarded.
  assert (Hallow : denied (limit lrt) remoteIP = false -> forwarded).
  { intros Hd. destruct (RoundTrip_allowed lrt request tr Hd) as (after & Heq & _).
    now exists after. }
  split; [reflexivity|]. split; [apply first_entry_prefix|].
  split; [apply contains_spec|]. split; [|split].
  - intros Hin. apply Hallow. apply not_true_iff_false. rewrite denied_spec.
    intros [Hne Hnot]. destruct Hin; contradiction.
  - intros Hden. apply denied_spec in Hden.
    rewrite RoundTrip_http_run. fold forwardedFOR remoteIP. now rewrite Hden.
  - intros Hf Hl. apply Hallow. unfold remoteIP. now rewrite Hf, Hl.
Qed.

(** ** One cycle *)

(** The proxy the program serves with. *)
Lemma ServeHTTP_run (accessList : list string) (skip : bool) (req : Request)
    (tr : list Event) :
  ServeHTTP (NewProxy (NewLoggingRoundTripper accessList skip) skip) req tr =
    match director skip req tr with
    | (Done out, tr1) =>
        RoundTrip (NewLoggingRoundTripper accessList skip)
                  (set_req_Header out (proxy_Header out)) tr1
    | (Exit c, tr1) => (Exit c, tr1)
    end.
Proof. reflexivity. Qed.

(** The director returns exactly when the body reads, the delay setting is
    usable and the destination parses; the request it returns is the
    buffered one with [URL] and [Host] set. *)
Lemma director_Done (skip : bool) (req out : Request) (tr tr' : list Event) :
  director skip req tr = (Done out, tr') <->
  body_error req = None /\ delay_error = None /\
  exists u,
    url_Parse (Header_Get (req_Header req) CF_FORWARDED_URL_HEADER) = Ok u /\
    out = set_req_Host (set_req_URL (rebuffered req) u) (Host u) /\
    tr' = tr ++ request_log (Header_Get (req_Header req) FORWARDED_FOR_HEADER)
                            (Header_Get (req_Header req) CF_FORWARDED_URL_HEADER)
                            (Header_Get (req_Header req) CF_PROXY_SIGNATURE_HEADER)
                            (string_of_bytes (body_bytes req)) (req_Header req) skip
             ++ delay_events ++ [EvRewrite u].
Proof.
  rewrite director_run.
  destruct (body_error req) as [e|].
  { split; [discriminate | intros [Hb _]; discriminate]. }
  destruct delay_error as [e|].
  { split; [discriminate | intros (_ & Hd & _); discriminate]. }
  destruct (url_Parse _) as [u|e].
  - split.
    + intros Heq. injection Heq as <- <-. repeat split. now exists u.
    + intros (_ & _ & u' & Hu & -> & ->). now injection Hu as <-.
  - split; [discriminate | intros (_ & _ & u' & Hu & _); discriminate].
Qed.


(** ** Bodies *)

(** C4: a request body that reads is logged and replaced by a buffer over
    the same bytes, at position 0, which is the body of the request the
    transport stage and then the outbound call receive; the body of an
    upstream response that reads is logged and replaced, in the response
    returned to the caller, by a buffer over the same bytes at position 0. *)
Theorem bodies_round_trip (accessList : list string) (skip : bool) :
  (forall (req : Request) (r : Reader) (u : URL) (tr : list Event),
     req_Body req = Some r ->
     rd_err r = None ->
     delay_error = None ->
     url_Parse (Header_Get (req_Header req) CF_FORWARDED_URL_HEADER) = Ok u ->
     let body := fst (ioutil_ReadAll r) in
     exists out tr1,
       director skip req tr = (Done out, tr1) /\
       EvLog (Printf ("Request Body: %s" +:+ LF) [VStr (string_of_bytes body)]) ∈ tr1 /\
       req_Body out = Some (bytes_NewBuffer body) /\
       rd_off (bytes_NewBuffer body) = 0%nat /\
       ioutil_ReadAll (bytes_NewBuffer body) = (body, None) /\
       let sent := set_req_Header out (proxy_Header out) in
       req_Body sent = Some (bytes_NewBuffer body) /\
       ServeHTTP (NewProxy (NewLoggingRoundTripper accessList skip) skip) req tr =
         RoundTrip (NewLoggingRoundTripper accessList skip) sent tr1 /\
       (denied accessList (first_entry (Header_Get (req_Header sent) FORWARDED_FOR_HEADER))
          = false ->
        EvNetwork sent ∈
          snd (ServeHTTP (NewProxy (NewLoggingRoundTripper accessList skip) skip) req tr)))
  /\
  (forall (request : Request) (res : Response) (tr : list Event),
     denied accessList (first_entry (Header_Get (req_Header request) FORWARDED_FOR_HEADER))
       = false ->
     network skip request = Ok res ->
     rd_err (res_Body res) = None ->
     let body := fst (ioutil_ReadAll (res_Body res)) in
     exists res' tr',
       RoundTrip (NewLoggingRoundTripper accessList skip) request tr = (Done (Ok res'), tr') /\
       EvLog (Printf ("Response Body: %s" +:+ LF) [VStr (string_of_bytes body)]) ∈ tr' /\
       res_Body res' = bytes_NewBuffer body /\
       rd_off (res_Body res') = 0%nat /\
       ioutil_ReadAll (res_Body res') = (body, None)).
Proof.
  split.
  - intros req r u tr Hb Hr Hd Hu body.
    assert (Hbe : body_error req = None).
    { unfold body_error. now rewrite Hb. }
    assert (Hbb : body_bytes req = body).
    { unfold body_bytes. now rewrite Hb. }
    pose (out := set_req_Host (set_req_URL (rebuffered req) u) (Host u)).
    assert (Hout : req_Body out = Some (bytes_NewBuffer body)).
    { unfold out, rebuffered. rewrite Hb. simpl. now rewrite Hbb. }
    assert (Hrun := director_run skip req tr). cbv zeta in Hrun.
    rewrite Hbe, Hd, Hu, Hbb in Hrun. fold out in Hrun.
    exists out. eexists. split; [exact Hrun|].
    split.
    { elem_of_trace. }
    split; [exact Hout|]. split; [reflexivity|]. split; [reflexivity|].
    cbv zeta. split; [exact Hout|].
    rewrite ServeHTTP_run, Hrun. split; [reflexivity|].
    intros Hden.
    destruct (RoundTrip_allowed (NewLoggingRoundTripper accessList skip)
                (set_req_Header out (proxy_Header out)) (tr ++
                 request_log (Header_Get (req_Header req) FORWARDED_FOR_HEADER)
                   (Header_Get (req_Header req) CF_FORWARDED_URL_HEADER)
                   (Header_Get (req_Header req) CF_PROXY_SIGNATURE_HEADER)
                   (string_of_bytes body) (req_Header req) skip ++
                 delay_events ++ [EvRewrite u]) Hden) as (after & Heq & _).
    rewrite Heq. cbn [snd]. elem_of_trace.
  - intros request res tr Hden Hn Hr body.
    rewrite RoundTrip_http_run. cbn [limit transport NewLoggingRoundTripper InsecureSkipVerify].
    rewrite Hden, Hn, Hr. fold body.
    eexists. eexists. split; [reflexivity|].
    split.
    { elem_of_trace. }
    repeat split.
Qed.

(** ** What passes through *)


(** ** Destinations that do not parse *)

(** C6: when [url.Parse] rejects the [X-Cf-Forwarded-Url] value, the cycle
    ends in the director with the process terminated (exit code 1): the
    request is neither rewritten nor sent, and, the body and the delay
    setting being in order, the last thing written is the error of the
    parser. *)
Theorem unparsable_destination_is_fatal (accessList : list string) (skip : bool)
    (req : Request) (tr : list Event) (err : error) :
  url_Parse (Header_Get (req_Header req) CF_FORWARDED_URL_HEADER) = Err err ->
  exists emitted,
    ServeHTTP (NewProxy (NewLoggingRoundTripper accessList skip) skip) req tr
      = (Exit 1, tr ++ emitted) /\
    existsb is_network emitted = false /\
    existsb is_rewrite emitted = false /\
    (body_error req = None -> delay_error = None ->
     last emitted = Some (EvLog (Println [VStr err]))).
Proof.
  intros Hu. rewrite ServeHTTP_run, director_run, Hu.
  destruct (body_error req) as [e|].
  { eexists. split; [reflexivity|]. repeat split; discriminate. }
  destruct delay_error as [e|] eqn:Hd.
  - rewrite (delay_error_events _ Hd).
    eexists. split; [reflexivity|]. repeat split; discriminate.
  - eexists. split; [reflexivity|].
    assert (Hde : existsb is_network delay_events = false /\
                  existsb is_rewrite delay_events = false).
    { unfold delay_events. destruct (String.eqb _ ""); [now split|].
      destruct (strconv_ParseInt _ 0 64); now split. }
    destruct Hde as [Hn Hw].
    split; [|split].
    + rewrite !existsb_app, Hn. reflexivity.
    + rewrite !existsb_app, Hw. reflexivity.
    + intros _ _. rewrite !app_assoc. apply last_snoc.
Qed.

(** ** Chains without the space *)

(** C9: when the [X-Forwarded-For] value has commas but no comma followed by
    a space, the split leaves it in one piece, and that piece is the claimed
    address; it equals no entry that is a single address (an entry without a
    comma), so a non-empty allow-list of such entries denies the request:
    403, [Forbidden], no call of the underlying transport. *)
Theorem comma_without_space_is_denied {T} `{RoundTripper T}
    (lrt : LoggingRoundTripper T) (request : Request) (tr : list Event)
    (forwardedFOR : string) :
  Header_Get (req_Header request) FORWARDED_FOR_HEADER = forwardedFOR ->
  has_substring ", " forwardedFOR = false ->
  has_substring "," forwardedFOR = true ->
  limit lrt ≠ [] ->
  (forall a, a ∈ limit lrt -> has_substring "," a = false) ->
  strings_Split forwardedFOR ", " = [forwardedFOR] /\
  first_entry forwardedFOR = forwardedFOR /\
  (forwardedFOR ∉ limit lrt) /\
  RoundTrip lrt request tr =
    (Done (Ok forbidden), tr ++ decision_log forwardedFOR ++ deny_log forwardedFOR).
Proof.
  intros Hget Hns Hc Hne Hsingle.
  assert (Hsplit : strings_Split forwardedFOR ", " = [forwardedFOR]).
  { unfold strings_Split. now rewrite (split_from_whole _ _ Hns). }
  assert (Hfirst : first_entry forwardedFOR = forwardedFOR).
  { now apply first_entry_whole. }
  assert (Hnot : forwardedFOR ∉ limit lrt).
  { intros Hin. apply Hsingle in Hin. congruence. }
  repeat split; auto.
  rewrite RoundTrip_run, Hget, Hfirst.
  now rewrite (proj2 (denied_spec _ _) (conj Hne Hnot)).
Qed.

(** ** An empty destination *)

Lemma Header_Get_absent (h : Header) (key : string) :
  h !! key = None -> Header_Get h key = "".
Proof. intros Hk. unfold Header_Get. now rewrite Hk. Qed.

(** C10: a request without [X-Cf-Forwarded-Url], or with an empty one, has
    the empty string parsed; the parser taking the empty string for the
    empty relative reference, the director does not terminate the process
    on it: it sets the zero URL and the empty host and returns, and the
    transport stage receives the request with the zero URL, which it sends
    out when the access decision allows. *)
Theorem empty_destination_passes_director (accessList : list string) (skip : bool)
    (req : Request) (tr : list Event) :
  req_Header req !! CF_FORWARDED_URL_HEADER = None \/
  Header_Get (req_Header req) CF_FORWARDED_URL_HEADER = "" ->
  url_Parse "" = Ok URL_zero ->
  body_error req = None ->
  delay_error = None ->
  exists out tr1,
    director skip req tr = (Done out, tr1) /\
    last tr1 = Some (EvRewrite URL_zero) /\
    req_URL out = URL_zero /\
    req_Host out = "" /\
    let sent := set_req_Header out (proxy_Header out) in
    req_URL sent = URL_zero /\
    ServeHTTP (NewProxy (NewLoggingRoundTripper accessList skip) skip) req tr =
      RoundTrip (NewLoggingRoundTripper accessList skip) sent tr1 /\
    (denied accessList (first_entry (Header_Get (req_Header sent) FORWARDED_FOR_HEADER))
       = false ->
     exists after,
       snd (RoundTrip (NewLoggingRoundTripper accessList skip) sent tr1) =
         tr1 ++ decision_log (first_entry (Header_Get (req_Header sent) FORWARDED_FOR_HEADER))
             ++ forward_log sent ++ EvNetwork sent :: after).
Proof.
  intros Hempty Hparse Hb Hd.
  assert (Hget : Header_Get (req_Header req) CF_FORWARDED_URL_HEADER = "").
  { destruct Hempty as [Habs|Hget]; [now apply Header_Get_absent | exact Hget]. }
  assert (Hrun := director_run skip req tr). cbv zeta in Hrun.
  rewrite Hb, Hd, Hget, Hparse in Hrun.
  eexists. eexists. split; [exact Hrun|].
  split; [rewrite !app_assoc; apply last_snoc|].
  split; [reflexivity|]. split; [reflexivity|].
  cbv zeta. split; [reflexivity|].
  split; [rewrite ServeHTTP_run, director_run, Hb, Hd, Hget, Hparse; reflexivity|].
  intros Hden.
  match goal with |- context [RoundTrip ?l ?r ?t] =>
    destruct (RoundTrip_allowed l r t Hden) as (after & Heq & _) end.
  exists after. now rewrite Heq.
Qed.

(** ** The order of a cycle *)

(** C8: in the events of one cycle, each entry of the request log (the three
    forwarding headers and the body) stands before the rewrite of the
    request and before the sleep, and none after; no sleep follows the
    outbound call, and with a delay configured a sleep stands before it; the
    outbound call comes after the rewrite and after the entry of the claimed
    address, and there is one only if the condition of denial was false, in
    which case nothing is written about a denial. *)
Theorem cycle_order (accessList : list string) (skip : bool) (req : Request)
    (tr : list Event) :
  exists emitted,
    snd (ServeHTTP (NewProxy (NewLoggingRoundTripper accessList skip) skip) req tr)
      = tr ++ emitted /\
    Forall (fun p => precedes p is_rewrite emitted /\ precedes p is_sleep emitted)
           request_entries /\
    never_after is_sleep is_network emitted /\
    (os_Getenv "ROUTE_SERVICE_SLEEP_MILLI" <> "" -> precedes is_sleep is_network emitted) /\
    precedes is_rewrite is_network emitted /\
    precedes is_decision_log is_network emitted /\
    (existsb is_network emitted = true ->
       existsb is_deny_log emitted = false /\
       forall out tr1, director skip req tr = (Done out, tr1) ->
         denied accessList (first_entry (Header_Get (proxy_Header out) FORWARDED_FOR_HEADER))
           = false) /\
    (body_error req = None ->
       forall e, e ∈ [ EvLog (Printf ("%s: %s" +:+ LF)
                         [VStr FORWARDED_FOR_HEADER;
                          VStr (Header_Get (req_Header req) FORWARDED_FOR_HEADER)]);
                       EvLog (Printf ("%s: %s" +:+ LF)
                         [VStr CF_FORWARDED_URL_HEADER;
                          VStr (Header_Get (req_Header req) CF_FORWARDED_URL_HEADER)]);
                       EvLog (Printf ("%s: %s" +:+ LF)
                         [VStr CF_PROXY_SIGNATURE_HEADER;
                          VStr (Header_Get (req_Header req) CF_PROXY_SIGNATURE_HEADER)]);
                       EvLog (Printf ("Request Body: %s" +:+ LF)
                         [VStr (string_of_bytes (body_bytes req))]) ] ->
                 e ∈ emitted).
Proof.
  rewrite ServeHTTP_run, director_run.
  destruct (body_error req) as [e|]; [order_leaf|].
  unfold delay_error, delay_events.
  destruct (String.eqb (os_Getenv "ROUTE_SERVICE_SLEEP_MILLI") "") eqn:Henv;
    [|destruct (strconv_ParseInt _ 0 64) as [n|e]; [|order_leaf]];
    (destruct (url_Parse _) as [u|e]; [|order_leaf]);
    rewrite RoundTrip_http_run;
    cbn [limit transport NewLoggingRoundTripper InsecureSkipVerify req_Header set_req_Header];
    (destruct (denied accessList _) eqn:Hden; [order_leaf|]);
    (destruct (network skip _) as [res|e]; [|order_leaf]);
    (destruct (rd_err (res_Body res)); order_leaf).
Qed.

End Cycle.

(** * The theorems at work on the demo platform *)

Lemma deny_returns_forbidden_witness :
  exists resp,
    demo_RoundTrip "" ["10.0.0.1"] true stranger_request [] =
      (Done (Ok resp), decision_log "10.0.0.2" ++ deny_log "10.0.0.2") /\
    res_StatusCode resp = 403 /\
    string_of_bytes (fst (ioutil_ReadAll (res_Body resp))) = "Forbidden".
Proof.
  destruct (deny_returns_forbidden (P := demo_platform "")
              (H := http_Transport_RoundTrip (P := demo_platform ""))
              (NewLoggingRoundTripper ["10.0.0.1"] true) stranger_request [])
    as (resp & emitted & Heq & Hcode & _ & Hbody & _ & _ & Hem & _).
  - discriminate.
  - intros Hin. apply contains_spec in Hin. vm_compute in Hin. discriminate.
  - exists resp. unfold demo_RoundTrip. rewrite Heq, Hem. repeat split; assumption.
Defined.

Lemma empty_allow_list_forwards_witness :
  EvNetwork stranger_request ∈ snd (demo_RoundTrip "" [] true stranger_request []) /\
  fst (demo_RoundTrip "" [] true stranger_request []) =
    Done (Ok (set_res_Body demo_response (bytes_NewBufferString "pong"))).
Proof.
  destruct (empty_allow_list_forwards (P := demo_platform "")
              (NewLoggingRoundTripper [] true) stranger_request [] eq_refl)
    as (_ & after & Heq & _).
  unfold demo_RoundTrip. rewrite Heq. split; [elem_of_trace | reflexivity].
Defined.

Lemma first_entry_decides_witness :
  EvNetwork ping_request ∈ snd (demo_RoundTrip "" ["1.2.3.4"] true ping_request []).
Proof.
  destruct (first_entry_decides (P := demo_platform "")
              (NewLoggingRoundTripper ["1.2.3.4"] true) ping_request [])
    as (_ & _ & _ & _ & _ & Hex).
  destruct (Hex eq_refl eq_refl) as (after & Heq).
  unfold demo_RoundTrip. rewrite Heq. elem_of_trace.
Defined.

Lemma bodies_round_trip_witness :
  (exists out tr1,
     director (P := demo_platform "") true ping_request [] = (Done out, tr1) /\
     req_Body out = Some (bytes_NewBufferString "ping")) /\
  (exists res' tr',
     demo_RoundTrip "" ["1.2.3.4"] true ping_request [] = (Done (Ok res'), tr') /\
     res_Body res' = bytes_NewBufferString "pong").
Proof.
  destruct (bodies_round_trip (P := demo_platform "") ["1.2.3.4"] true) as [Hreq Hres].
  split.
  - destruct (Hreq ping_request (bytes_NewBufferString "ping")
                {| Scheme := "http"; Opaque := ""; Host := "backend.internal";
                   Path := "/path"; RawPath := ""; RawQuery := "x=1"; Fragment := "" |}
                [] eq_refl eq_refl eq_refl eq_refl)
      as (out & tr1 & Hd & _ & Hb & _).
    exists out, tr1. split; assumption.
  - destruct (Hres ping_request demo_response [] eq_refl eq_refl eq_refl)
      as (res' & tr' & Heq & _ & Hb & _).
    exists res', tr'. split; assumption.
Defined.



Lemma unparsable_destination_is_fatal_witness :
  fst (demo_serve "" ["1.2.3.4"] true bad_url_request) = Exit 1 /\
  existsb is_network (snd (demo_serve "" ["1.2.3.4"] true bad_url_request)) = false.
Proof.
  destruct (unparsable_destination_is_fatal (P := demo_platform "") ["1.2.3.4"] true
              bad_url_request [] "net/url: invalid control character in URL" eq_refl)
    as (emitted & Heq & Hn & _).
  unfold demo_serve, demo_proxy. rewrite Heq. split; [reflexivity | exact Hn].
Defined.

(** C7, as the claim has it, fails: with the setting [abc] a request ends in
    the termination of the process inside the director, the error of
    [strconv.ParseInt] being the last thing written; and the negative
    setting [-5] is no error anywhere: the cycle completes, with a sleep of
    minus five milliseconds. *)
Lemma delay_setting_fails_in_request :
  fst (demo_serve "abc" [] true stranger_request) = Exit 1 /\
  last (snd (demo_serve "abc" [] true stranger_request)) =
    Some (EvLog (Println [VStr ("strconv.ParseInt: parsing " +:+ DQ +:+ "abc" +:+ DQ
                                +:+ ": invalid syntax")])) /\
  existsb is_network (snd (demo_serve "abc" [] true stranger_request)) = false /\
  fst (demo_serve "-5" [] true stranger_request) =
    Done (Ok (set_res_Body demo_response (bytes_NewBufferString "pong"))) /\
  EvSleep (-5000000) ∈ snd (demo_serve "-5" [] true stranger_request).
Proof.
  split; [reflexivity|]. split; [reflexivity|]. split; [reflexivity|].
  split; [reflexivity|]. vm_compute. elem_of_trace.
Qed.

Lemma cycle_order_witness :
  exists emitted,
    snd (demo_serve "25" ["1.2.3.4"] true ping_request) = emitted /\
    precedes is_body_log is_rewrite emitted /\
    precedes is_sleep is_network emitted /\
    EvSleep 25000000 ∈ emitted /\
    is_network <$> last emitted = Some false.
Proof.
  destruct (cycle_order (P := demo_platform "25") ["1.2.3.4"] true ping_request [])
    as (emitted & Heq & Hlog & _ & Hsleep & _).
  exists emitted. split; [exact Heq|].
  split.
  { unfold request_entries in Hlog.
    apply Forall_cons_1 in Hlog as [_ Hlog]. apply Forall_cons_1 in Hlog as [_ Hlog].
    apply Forall_cons_1 in Hlog as [_ Hlog]. apply Forall_cons_1 in Hlog as [[Hb _] _].
    exact Hb. }
  split; [apply Hsleep; discriminate|].
  unfold demo_serve, demo_proxy. cbn [app] in Heq. rewrite <- Heq.
  split; [vm_compute; elem_of_trace | reflexivity].
Defined.

Lemma comma_without_space_is_denied_witness :
  first_entry "1.2.3.4,5.6.7.8" = "1.2.3.4,5.6.7.8" /\
  demo_RoundTrip "" ["1.2.3.4"] true no_space_request [] =
    (Done (Ok forbidden),
     decision_log "1.2.3.4,5.6.7.8" ++ deny_log "1.2.3.4,5.6.7.8").
Proof.
  destruct (comma_without_space_is_denied (P := demo_platform "")
              (H := http_Transport_RoundTrip (P := demo_platform ""))
              (NewLoggingRoundTripper ["1.2.3.4"] true) no_space_request []
              "1.2.3.4,5.6.7.8")
    as (_ & Hfirst & _ & Heq).
  - reflexivity.
  - reflexivity.
  - reflexivity.
  - discriminate.
  - intros a Ha. apply list_elem_of_singleton in Ha. now subst.
  - split; [exact Hfirst | exact Heq].
Defined.

Lemma empty_destination_passes_director_witness :
  exists out tr1,
    director (P := demo_platform "") true empty_url_request [] = (Done out, tr1) /\
    req_URL out = URL_zero /\
    EvNetwork (set_req_Header out (demo_proxy_Header out))
      ∈ snd (demo_serve "" [] true empty_url_request).
Proof.
  destruct (empty_destination_passes_director (P := demo_platform "") [] true
              empty_url_request [])
    as (out & tr1 & Hd & _ & Hu & _ & _ & Hserve & Hsent).
  - right. reflexivity.
  - reflexivity.
  - reflexivity.
  - reflexivity.
  - exists out, tr1. split; [exact Hd|]. split; [exact Hu|].
    unfold demo_serve, demo_proxy. cbv zeta. rewrite Hserve.
    destruct Hsent as (after & Heq); [reflexivity|].
    rewrite Heq. apply (proj2 (elem_of_app _ _ _)). right. elem_of_trace.
Defined.

(** * Further properties of the stages *)

Section Stages.
Context {P : Platform}.

(** ** Failures behind the transport stage *)

(** X1: an error of the underlying round tripper is what [RoundTrip]
    returns, with the trace the round tripper left: nothing is written after
    it and the process goes on. *)
Theorem transport_error_is_returned {T} `{RoundTripper T}
    (lrt : LoggingRoundTripper T) (request : Request) (tr tr' : list Event)
    (err : error) :
  denied (limit lrt)
         (first_entry (Header_Get (req_Header request) FORWARDED_FOR_HEADER)) = false ->
  RoundTrip (transport lrt) request
    (tr ++ decision_log (first_entry (Header_Get (req_Header request) FORWARDED_FOR_HEADER))
        ++ forward_log request) = (Done (Err err), tr') ->
  RoundTrip lrt request tr = (Done (Err err), tr').
Proof.
  intros Hden Hinner. rewrite RoundTrip_run, Hden.
  unfold bind. rewrite Hinner. reflexivity.
Qed.

(** X2: when the body of the upstream response does not read, the process
    is terminated after the outbound call was made: the caller gets no
    response, and the error is the last thing written. *)
Theorem unreadable_response_is_fatal (lrt : LoggingRoundTripper http_Transport)
    (request : Request) (tr : list Event) (res : Response) (err : error) :
  denied (limit lrt)
         (first_entry (Header_Get (req_Header request) FORWARDED_FOR_HEADER)) = false ->
  network (InsecureSkipVerify (transport lrt)) request = Ok res ->
  rd_err (res_Body res) = Some err ->
  RoundTrip lrt request tr =
    (Exit 1,
     tr ++ decision_log (first_entry (Header_Get (req_Header request) FORWARDED_FOR_HEADER))
        ++ forward_log request
        ++ [EvNetwork request; EvLog (Println [VStr err])]).
Proof.
  intros Hden Hn Hr. rewrite RoundTrip_http_run, Hden, Hn, Hr.
  rewrite <- !app_assoc. reflexivity.
Qed.

(** ** Requests the director does not log *)

(** X3: a request whose body does not read ends the process before
    anything about the request is written: the whole cycle leaves the one
    line of the error, and neither sleeps nor sends. *)
Theorem unreadable_body_is_fatal_unlogged (accessList : list string) (skip : bool)
    (req : Request) (r : Reader) (err : error) (tr : list Event) :
  req_Body req = Some r ->
  rd_err r = Some err ->
  director skip req tr = (Exit 1, tr ++ [EvLog (Println [VStr err])]) /\
  ServeHTTP (NewProxy (NewLoggingRoundTripper accessList skip) skip) req tr =
    (Exit 1, tr ++ [EvLog (Println [VStr err])]).
Proof.
  intros Hb Hr.
  assert (Hbe : body_error req = Some err).
  { unfold body_error, ioutil_ReadAll. now rewrite Hb. }
  assert (Hd : director skip req tr = (Exit 1, tr ++ [EvLog (Println [VStr err])])).
  { now rewrite director_run, Hbe. }
  split; [exact Hd|]. now rewrite ServeHTTP_run, Hd.
Qed.

(** X4: a request without a body keeps none: the director logs an empty
    body and returns the request with nothing but [URL] and [Host]
    changed. *)
Theorem nil_body_stays_nil (skip : bool) (req : Request) (u : URL) (tr : list Event) :
  req_Body req = None ->
  delay_error = None ->
  url_Parse (Header_Get (req_Header req) CF_FORWARDED_URL_HEADER) = Ok u ->
  exists out tr',
    director skip req tr = (Done out, tr') /\
    out = set_req_Host (set_req_URL req u) (Host u) /\
    req_Body out = None /\
    EvLog (Printf ("Request Body: %s" +:+ LF) [VStr ""]) ∈ tr'.
Proof.
  intros Hb Hd Hu.
  assert (Hbe : body_error req = None) by (unfold body_error; now rewrite Hb).
  assert (Hbb : body_bytes req = []) by (unfold body_bytes; now rewrite Hb).
  assert (Hre : rebuffered req = req) by (unfold rebuffered; now rewrite Hb).
  assert (Hrun := director_run skip req tr). cbv zeta in Hrun.
  rewrite Hbe, Hd, Hu, Hbb, Hre in Hrun.
  eexists. eexists. split; [exact Hrun|]. split; [reflexivity|].
  split; [exact Hb|]. elem_of_trace.
Qed.

(** ** The allow-list as a set *)

(** X5: the decision depends on which strings are on the allow-list, not on
    their order or on repetitions. *)
Theorem denied_same_entries (l1 l2 : list string) (remoteIP : string) :
  (forall x, x ∈ l1 <-> x ∈ l2) ->
  denied l1 remoteIP = denied l2 remoteIP.
Proof.
  intros Hsame.
  assert (Hiff : denied l1 remoteIP = true <-> denied l2 remoteIP = true).
  { rewrite !denied_spec. rewrite Hsame.
    assert (Hnil : l1 = [] <-> l2 = []).
    { split; intros ->.
      - destruct l2 as [|x l2]; [reflexivity|].
        exfalso. apply (not_elem_of_nil x). apply Hsame. constructor.
      - destruct l1 as [|x l1]; [reflexivity|].
        exfalso. apply (not_elem_of_nil x). apply Hsame. constructor. }
    now rewrite Hnil. }
  destruct (denied l1 remoteIP), (denied l2 remoteIP); intuition congruence.
Qed.

(** X6: more entries on a list that has some never turn an allowed address
    into a denied one, on whichever side they are added. *)
Theorem denied_more_entries (l l' : list string) (remoteIP : string) :
  l <> [] ->
  denied l remoteIP = false ->
  denied (l ++ l') remoteIP = false /\ denied (l' ++ l) remoteIP = false.
Proof.
  intros Hne Hd.
  assert (Hin : remoteIP ∈ l).
  { destruct (contains l remoteIP) eqn:Hc; [now apply contains_spec|].
    exfalso. apply not_true_iff_false in Hd. apply Hd. apply denied_spec.
    split; [exact Hne|]. intros Hin. apply contains_spec in Hin. congruence. }
  split; apply not_true_iff_false; rewrite denied_spec; intros [_ Hnot];
    apply Hnot; rewrite elem_of_app; auto.
Qed.

(** ** The length of the delay *)

(** X7: up to 9223372036854 milliseconds the sleep lasts what the setting
    says; from there to 18446744073709 the product with [time.Millisecond]
    leaves [int64] on the negative side, and the sleep returns at once. *)
Theorem delay_in_and_out_of_range (n : Z) :
  (0 <= n <= 9223372036854 -> pause (Duration_Milliseconds n) = n * 1000000) /\
  (9223372036855 <= n <= 18446744073709 -> pause (Duration_Milliseconds n) = 0).
Proof.
  unfold pause, Duration_Milliseconds, wrap64, time_Millisecond. split; intros Hn.
  - rewrite Z.mod_small by lia. lia.
  - assert (Hm : (n * 1000000 + 2 ^ 63) mod 2 ^ 64 = n * 1000000 + 2 ^ 63 - 2 ^ 64).
    { symmetry. apply (Z.mod_unique _ _ 1); lia. }
    rewrite Hm. lia.
Qed.

(** ** What a denied request costs *)

(** X8: a request that ends denied went through the whole director first:
    its body was read and logged with the headers, the configured delay was
    slept, the request was rewritten; the refusal comes last. *)
Theorem denied_cycle_trace (accessList : list string) (skip : bool) (req : Request)
    (u : URL) (tr : list Event) :
  body_error req = None ->
  delay_error = None ->
  url_Parse (Header_Get (req_Header req) CF_FORWARDED_URL_HEADER) = Ok u ->
  let out := set_req_Host (set_req_URL (rebuffered req) u) (Host u) in
  let remoteIP := first_entry (Header_Get (proxy_Header out) FORWARDED_FOR_HEADER) in
  denied accessList remoteIP = true ->
  ServeHTTP (NewProxy (NewLoggingRoundTripper accessList skip) skip) req tr =
    (Done (Ok forbidden),
     tr ++ request_log (Header_Get (req_Header req) FORWARDED_FOR_HEADER)
                       (Header_Get (req_Header req) CF_FORWARDED_URL_HEADER)
                       (Header_Get (req_Header req) CF_PROXY_SIGNATURE_HEADER)
                       (string_of_bytes (body_bytes req)) (req_Header req) skip
        ++ delay_events ++ [EvRewrite u]
        ++ decision_log remoteIP ++ deny_log remoteIP).
Proof.
  intros Hb Hd Hu out remoteIP Hden.
  rewrite ServeHTTP_run, director_run, Hb, Hd, Hu. fold out.
  rewrite RoundTrip_http_run.
  cbn [limit transport NewLoggingRoundTripper InsecureSkipVerify req_Header set_req_Header].
  fold remoteIP. rewrite Hden. rewrite <- !app_assoc. reflexivity.
Qed.

End Stages.

(** * Properties of the configuration *)

(** ** Splitting and putting together *)

Lemma append_length (a b : string) :
  String.length (a +:+ b) = (String.length a + String.length b)%nat.
Proof.
  induction a as [|c a IH]; [reflexivity|].
  rewrite append_cons. cbn [String.length]. now rewrite IH.
Qed.

Lemma split_from_skip (sep p s cur : string) :
  split_from sep (String.length p) cur (p +:+ s) = split_from sep 0 cur s.
Proof.
  induction p as [|c p IH]; [reflexivity|].
  rewrite append_cons. cbn [String.length split_from]. exact IH.
Qed.

Lemma split_from_not_nil (sep : string) (k : nat) (cur s : string) :
  split_from sep k cur s <> [].
Proof.
  revert k cur. induction s as [|c s IH]; intros k cur; cbn [split_from].
  - discriminate.
  - destruct k; [|apply IH].
    destruct (String.prefix sep (String c s)); [discriminate | apply IH].
Qed.

Lemma joined_cons (sep x : string) (l : list string) :
  l <> [] -> joined sep (x :: l) = x +:+ sep +:+ joined sep l.
Proof. destruct l; [congruence | reflexivity]. Qed.

Lemma joined_split_from (sep : string) (n : nat) :
  sep <> "" ->
  forall s, (String.length s <= n)%nat ->
  forall cur, joined sep (split_from sep 0 cur s) = cur +:+ s.
Proof.
  intros Hsep. induction n as [|n IH]; intros s Hlen cur.
  - destruct s; [|simpl in Hlen; lia]. simpl. now rewrite append_empty_r.
  - destruct s as [|c s]; [simpl; now rewrite append_empty_r|].
    cbn [split_from]. destruct (String.prefix sep (String c s)) eqn:Hp.
    + destruct sep as [|c' sep']; [congruence|].
      destruct (prefix_inv _ _ Hp) as [rest Hrest].
      rewrite append_cons in Hrest. injection Hrest as -> ->.
      replace (String.length (String c' sep') - 1)%nat with (String.length sep')
        by (cbn [String.length]; lia).
      rewrite split_from_skip.
      rewrite joined_cons by apply split_from_not_nil.
      rewrite IH, append_empty_l.
      * reflexivity.
      * cbn [String.length] in Hlen. rewrite append_length in Hlen. lia.
    + rewrite IH by (simpl in Hlen; lia).
      now rewrite append_assoc, append_cons, append_empty_l.
Qed.

(** X9: a split loses nothing: the entries put together again with the
    separator in between are the string that was split, for every string
    and every separator that is not empty; so for [ACCESS_LIST] and the
    space, and for [X-Forwarded-For] and comma-space. *)
Theorem joined_strings_Split (s sep : string) :
  sep <> "" -> joined sep (strings_Split s sep) = s.
Proof.
  intros Hsep. unfold strings_Split. destruct sep as [|c sep']; [congruence|].
  now rewrite (joined_split_from _ (String.length s)).
Qed.

Lemma split_from_length (sep s : string) :
  forall k cur, length (split_from sep k cur s) = S (count_from sep k s).
Proof.
  induction s as [|a s IH]; intros k cur; cbn [split_from count_from].
  - reflexivity.
  - destruct k; [|apply IH].
    destruct (String.prefix sep (String a s)); cbn [length];
      [f_equal|]; apply IH.
Qed.

(** X10: a split has one entry more than the separator has occurrences, as
    [strings.Count] counts them. *)
Theorem strings_Split_length (s sep : string) :
  sep <> "" -> length (strings_Split s sep) = S (strings_Count s sep).
Proof.
  intros Hsep. unfold strings_Split, strings_Count.
  destruct sep as [|c sep']; [congruence|]. apply split_from_length.
Qed.

(** ** The allow-list of [main] *)

Lemma existsb_eqb_elem (str : string) (l : list string) :
  existsb (String.eqb str) l = true <-> str ∈ l.
Proof.
  rewrite existsb_exists. split.
  - intros (x & Hin & Heq). apply String.eqb_eq in Heq as ->.
    now apply list_elem_of_In.
  - intros Hin. exists str. split; [now apply list_elem_of_In | apply String.eqb_refl].
Qed.

Lemma lookups_app (l1 l2 : list Event) : lookups (l1 ++ l2) = lookups l1 ++ lookups l2.
Proof. apply omap_app. Qed.

Section MainProperties.
Context {P : Platform}.
Variable net_LookupHost : string -> list string * option error.

Lemma append_addrs_run (addr : list string) :
  forall k access_list tr,
  exists emitted,
    append_addrs k addr access_list tr = (Done (access_list ++ addr), tr ++ emitted) /\
    lookups emitted = [] /\
    length emitted = length addr.
Proof.
  induction addr as [|a addr IH]; intros k access_list tr.
  - exists []. cbn. now rewrite !app_nil_r.
  - cbn [append_addrs]. unfold bind, log_Printf, emit.
    destruct (IH (k + 1)%N (access_list ++ [a])
                 (tr ++ [EvLog (Printf ("IP " +:+ string_of_rune k +:+ ": " +:+ a) [])]))
      as (emitted & Heq & Hl & Hn).
    exists (EvLog (Printf ("IP " +:+ string_of_rune k +:+ ": " +:+ a) []) :: emitted).
    rewrite Heq, <- !app_assoc. repeat split; [exact Hl | cbn; now rewrite Hn].
Qed.

Lemma resolve_range_run (tokens : list string) :
  forall access_list tr,
  exists emitted,
    resolve_range net_LookupHost tokens access_list tr =
      (Done (access_list ++ resolved net_LookupHost tokens), tr ++ emitted) /\
    lookups emitted = filter (fun v => needs_lookup v = true) tokens /\
    (resolved net_LookupHost tokens = [] /\ filter (fun v => needs_lookup v = true) tokens = []
     -> emitted = []).
Proof.
  induction tokens as [|v tokens IH]; intros access_list tr.
  - exists []. cbn. now rewrite !app_nil_r.
  - cbn [resolve_range]. unfold resolved. cbn [flat_map]. fold (resolved net_LookupHost tokens).
    rewrite filter_cons. destruct (needs_lookup v) eqn:Hv.
    + unfold bind at 1, log_Printf at 1, emit at 1.
      unfold bind at 1, log_Printf at 1, emit at 1.
      unfold bind at 1.
      destruct (append_addrs_run (fst (net_LookupHost v)) 0%N access_list
                  ((tr ++ [EvLog (Printf ("Resolving ip for: [%d]" +:+ LF) [VStr v])])
                   ++ [EvLog (Printf "Error ? " [VStr (error_text (snd (net_LookupHost v)))])]))
        as (em1 & Heq1 & Hl1 & _).
      rewrite Heq1.
      destruct (IH (access_list ++ fst (net_LookupHost v))
                   (((tr ++ [EvLog (Printf ("Resolving ip for: [%d]" +:+ LF) [VStr v])])
                     ++ [EvLog (Printf "Error ? " [VStr (error_text (snd (net_LookupHost v)))])])
                    ++ em1))
        as (em2 & Heq2 & Hl2 & _).
      rewrite Heq2.
      exists (EvLog (Printf ("Resolving ip for: [%d]" +:+ LF) [VStr v])
              :: EvLog (Printf "Error ? " [VStr (error_text (snd (net_LookupHost v)))])
              :: em1 ++ em2).
      rewrite <- !app_assoc. split; [reflexivity|]. split.
      * rewrite decide_True by reflexivity.
        change (lookups (?a :: ?b :: ?l)) with (lookups ([a; b] ++ l)).
        rewrite !lookups_app, Hl1, Hl2. reflexivity.
      * rewrite decide_True by reflexivity. intros [_ Hf]. discriminate.
    + destruct (IH access_list tr) as (em & Heq & Hl & Hnone).
      exists em. rewrite Heq. rewrite decide_False by congruence.
      repeat split; assumption.
Qed.

(** The list of [main], whatever [ACCESS_LIST] holds. *)
Lemma main_access_list_run (tr : list Event) :
  let env_limit := os_Getenv "ACCESS_LIST" in
  let tokens := strings_Split env_limit " " in
  if String.eqb env_limit "" then
    main_access_list net_LookupHost tr = (Done [], tr)
  else
    exists emitted,
      main_access_list net_LookupHost tr =
        (Done (tokens ++ resolved net_LookupHost tokens),
         tr ++ EvLog (Printf ("Limiting ip access to: [%d]" +:+ LF) [VStr env_limit])
            :: emitted) /\
      lookups emitted = filter (fun v => needs_lookup v = true) tokens /\
      (resolved net_LookupHost tokens = [] /\
       filter (fun v => needs_lookup v = true) tokens = [] -> emitted = []).
Proof.
  intros env_limit tokens. unfold main_access_list. fold env_limit.
  destruct (String.eqb env_limit "") eqn:Henv.
  - apply String.eqb_eq in Henv. now rewrite Henv.
  - assert (Hlen : Nat.eqb (String.length env_limit) 0 = false).
    { destruct env_limit; [discriminate | reflexivity]. }
    rewrite Hlen. cbn [negb]. unfold bind, log_Printf, emit. fold tokens.
    destruct (resolve_range_run tokens tokens
                (tr ++ [EvLog (Printf ("Limiting ip access to: [%d]" +:+ LF) [VStr env_limit])]))
      as (emitted & Heq & Hl & Hnone).
    exists emitted. rewrite Heq, <- app_assoc. repeat split; assumption.
Qed.

End MainProperties.

Section MainTheorems.
Context {P : Platform}.
Variable net_LookupHost : string -> list string * option error.

(** X11: with [ACCESS_LIST] set, the list of [main] is the entries of
    [ACCESS_LIST] as split at the spaces, every one of them kept, names
    too, followed by the addresses the resolver gave for the entries that
    are not four-part numbers, in the order of the entries; the resolver is
    asked once for each such entry, in that order, and whatever error it
    reports stops nothing. *)
Theorem main_access_list_structure (tr : list Event) :
  os_Getenv "ACCESS_LIST" <> "" ->
  let tokens := strings_Split (os_Getenv "ACCESS_LIST") " " in
  exists emitted,
    main_access_list net_LookupHost tr =
      (Done (tokens ++ resolved net_LookupHost tokens), tr ++ emitted) /\
    lookups emitted = filter (fun v => needs_lookup v = true) tokens.
Proof.
  intros Hne tokens. assert (Hrun := main_access_list_run net_LookupHost tr).
  cbv zeta in Hrun. apply String.eqb_neq in Hne. rewrite Hne in Hrun.
  destruct Hrun as (emitted & Heq & Hl & _).
  eexists. split; [exact Heq|].
  change (lookups (?a :: ?l)) with (lookups ([a] ++ l)).
  now rewrite lookups_app.
Qed.

(** X12: building the list never ends the process, and the list is empty
    exactly when [ACCESS_LIST] is: a value that is set, were it a single
    space, always restricts. *)
Theorem main_access_list_empty_iff (tr : list Event) :
  exists access_list emitted,
    main_access_list net_LookupHost tr = (Done access_list, tr ++ emitted) /\
    (access_list = [] <-> os_Getenv "ACCESS_LIST" = "") /\
    (forall remoteIP, os_Getenv "ACCESS_LIST" <> "" -> remoteIP ∉ access_list ->
       denied access_list remoteIP = true).
Proof.
  assert (Hrun := main_access_list_run net_LookupHost tr). cbv zeta in Hrun.
  destruct (String.eqb (os_Getenv "ACCESS_LIST") "") eqn:Henv.
  - apply String.eqb_eq in Henv. exists [], []. rewrite app_nil_r.
    split; [exact Hrun|]. split; [tauto|]. intros ip Hne. contradiction.
  - apply String.eqb_neq in Henv. destruct Hrun as (emitted & Heq & _).
    eexists. eexists. split; [exact Heq|].
    assert (Hnn : strings_Split (os_Getenv "ACCESS_LIST") " "
                  ++ resolved net_LookupHost (strings_Split (os_Getenv "ACCESS_LIST") " ")
                  <> []).
    { unfold strings_Split. intros Hnil. apply app_eq_nil in Hnil as [Hnil _].
      now apply split_from_not_nil in Hnil. }
    split; [split; intros; contradiction|].
    intros ip _ Hnot. apply denied_spec. now split.
Qed.

Lemma prefix_empty (s : string) : String.prefix "" s = true.
Proof. now destruct s. Qed.

Lemma split_blank_trailing (s : string) :
  forall cur, "" ∈ split_from " " 0 cur (s +:+ " ").
Proof.
  induction s as [|c s IH]; intros cur.
  - cbn. apply list_elem_of_further, list_elem_of_here.
  - rewrite append_cons. cbn [split_from].
    destruct (String.prefix " " (String c (s +:+ " "))).
    + apply list_elem_of_further. apply IH.
    + apply IH.
Qed.

Lemma split_blank_doubled (s : string) :
  has_substring "  " s = true -> forall cur, "" ∈ split_from " " 0 cur s.
Proof.
  induction s as [|c s IH]; intros Hs cur; [discriminate|].
  cbn [has_substring] in Hs. apply orb_true_iff in Hs as [Hp|Hs].
  - destruct (prefix_inv _ _ Hp) as [rest Hrest].
    rewrite !append_cons, append_empty_l in Hrest. injection Hrest as -> ->.
    cbn. rewrite prefix_empty.
    apply list_elem_of_further, list_elem_of_here.
  - cbn [split_from]. destruct (String.prefix " " (String c s)).
    + apply list_elem_of_further. now apply IH.
    + now apply IH.
Qed.

Lemma blank_entry_split (env_limit : string) :
  has_blank_entry env_limit ->
  env_limit <> "" /\ "" ∈ strings_Split env_limit " ".
Proof.
  unfold strings_Split. intros [Hp|[Hd|[s ->]]].
  - destruct (prefix_inv _ _ Hp) as [rest ->]. split; [discriminate|].
    rewrite append_cons, append_empty_l. cbn. rewrite prefix_empty.
    apply list_elem_of_here.
  - split; [now destruct env_limit | now apply split_blank_doubled].
  - split; [now destruct s | apply split_blank_trailing].
Qed.

Lemma first_entry_leading_separator (forwardedFOR : string) :
  String.prefix ", " forwardedFOR = true -> first_entry forwardedFOR = "".
Proof.
  intros Hp. destruct (prefix_inv _ _ Hp) as [rest ->].
  rewrite !append_cons, append_empty_l. unfold first_entry, strings_Split.
  cbn. now rewrite prefix_empty.
Qed.

(** X13: when [ACCESS_LIST] starts or ends with a space, or has two in a
    row, the empty string is on the list of [main]; a request that carries
    no [X-Forwarded-For], an empty one, or one that starts with a
    comma-space claims the empty address, and is forwarded. *)
Theorem blank_entry_admits_unnamed (tr : list Event) :
  has_blank_entry (os_Getenv "ACCESS_LIST") ->
  exists access_list tr',
    main_access_list net_LookupHost tr = (Done access_list, tr') /\
    "" ∈ access_list /\
    forall (skip : bool) (request : Request) (tr0 : list Event),
      Header_Get (req_Header request) FORWARDED_FOR_HEADER = "" \/
      String.prefix ", " (Header_Get (req_Header request) FORWARDED_FOR_HEADER) = true ->
      exists after,
        RoundTrip (NewLoggingRoundTripper access_list skip) request tr0 =
          (relayed (network skip request),
           tr0 ++ decision_log "" ++ forward_log request ++ EvNetwork request :: after).
Proof.
  intros Hblank. apply blank_entry_split in Hblank as [Hne Hin].
  assert (Hrun := main_access_list_run net_LookupHost tr). cbv zeta in Hrun.
  apply String.eqb_neq in Hne. rewrite Hne in Hrun.
  destruct Hrun as (emitted & Heq & _).
  eexists. eexists. split; [exact Heq|].
  assert (Hall : "" ∈ strings_Split (os_Getenv "ACCESS_LIST") " "
                   ++ resolved net_LookupHost (strings_Split (os_Getenv "ACCESS_LIST") " ")).
  { apply elem_of_app. now left. }
  split; [exact Hall|].
  intros skip request tr0 Hfwd.
  assert (Hfirst : first_entry (Header_Get (req_Header request) FORWARDED_FOR_HEADER) = "").
  { destruct Hfwd as [->|Hp]; [reflexivity | now apply first_entry_leading_separator]. }
  match goal with |- context [RoundTrip ?l request tr0] =>
    destruct (RoundTrip_allowed l request tr0) as (after & Hrt & _) end.
  - rewrite Hfirst. apply not_true_iff_false. rewrite denied_spec.
    intros [_ Hnot]. now apply Hnot.
  - rewrite Hfirst in Hrt. now exists after.
Qed.

(** X14: entries made of digits and dots with exactly three dots are taken
    as they are: when [ACCESS_LIST] holds only such entries, the resolver is
    not asked, one line is written, and the list is the entries. *)
Theorem literal_entries_not_resolved (tr : list Event) :
  os_Getenv "ACCESS_LIST" <> "" ->
  (forall v, v ∈ strings_Split (os_Getenv "ACCESS_LIST") " " -> needs_lookup v = false) ->
  main_access_list net_LookupHost tr =
    (Done (strings_Split (os_Getenv "ACCESS_LIST") " "),
     tr ++ [EvLog (Printf ("Limiting ip access to: [%d]" +:+ LF)
                          [VStr (os_Getenv "ACCESS_LIST")])]).
Proof.
  intros Hne Hlit. assert (Hrun := main_access_list_run net_LookupHost tr).
  cbv zeta in Hrun. apply String.eqb_neq in Hne. rewrite Hne in Hrun.
  destruct Hrun as (emitted & Heq & _ & Hnone).
  assert (Hnil : forall l, (forall v, v ∈ l -> needs_lookup v = false) ->
            resolved net_LookupHost l = [] /\
            filter (fun v => needs_lookup v = true) l = []).
  { induction l as [|v l IH]; intros Hl; [now split|].
    assert (Hv : needs_lookup v = false) by (apply Hl; constructor).
    destruct IH as [Hr Hf]; [intros w Hw; apply Hl; now constructor|].
    unfold resolved in *. cbn [flat_map]. rewrite Hv, Hr, filter_cons, Hf.
    rewrite decide_False by congruence. now split. }
  destruct (Hnil _ Hlit) as [Hr Hf].
  rewrite Heq, Hr, (Hnone (conj Hr Hf)), app_nil_r. reflexivity.
Qed.

(** X15: certificates are checked only when [SKIP_SSL_VALIDATION] is one
    of six spellings of false; unset, empty or anything [strconv.ParseBool]
    does not read, the check is skipped, as it is for the six spellings of
    true. *)
Theorem tls_check_only_on_false :
  (main_skipSslValidation = false <->
   os_Getenv "SKIP_SSL_VALIDATION" ∈ ["0"; "f"; "F"; "false"; "FALSE"; "False"]) /\
  (forall e, strconv_ParseBool (os_Getenv "SKIP_SSL_VALIDATION") = Err e ->
             main_skipSslValidation = true).
Proof.
  unfold main_skipSslValidation, strconv_ParseBool.
  set (v := os_Getenv "SKIP_SSL_VALIDATION").
  split.
  - destruct (existsb (String.eqb v) ["1"; "t"; "T"; "true"; "TRUE"; "True"]) eqn:Ht.
    + split; [discriminate|]. intros Hin. exfalso.
      rewrite !elem_of_cons in Hin.
      repeat (destruct Hin as [->|Hin]; [discriminate Ht|]). inversion Hin.
    + destruct (existsb (String.eqb v) ["0"; "f"; "F"; "false"; "FALSE"; "False"]) eqn:Hf.
      * split; [intros _; now apply existsb_eqb_elem | reflexivity].
      * split; [discriminate|]. intros Hin. apply existsb_eqb_elem in Hin. congruence.
  - intros e. destruct (existsb (String.eqb v) ["1"; "t"; "T"; "true"; "TRUE"; "True"]);
      [discriminate|].
    destruct (existsb (String.eqb v) ["0"; "f"; "F"; "false"; "FALSE"; "False"]);
      [discriminate | reflexivity].
Qed.

(** X16: the setup of [main] never ends the process, whatever the
    environment and the resolver: it comes to [http.ListenAndServe] with the
    address of [PORT], of 8080 when [PORT] is empty, and with the proxy over
    the list and the flag it computed, the same flag on the director and on
    the transport. *)
Theorem main_setup_reaches_listen (tr : list Event) :
  exists access_list emitted,
    main_access_list net_LookupHost tr = (Done access_list, tr ++ emitted) /\
    main_setup net_LookupHost tr =
      (Done (":" +:+ main_port,
             NewProxy (NewLoggingRoundTripper access_list main_skipSslValidation)
                      main_skipSslValidation),
       tr ++ emitted) /\
    main_port <> "" /\
    (os_Getenv "PORT" = "" -> main_port = "8080") /\
    (os_Getenv "PORT" <> "" -> main_port = os_Getenv "PORT").
Proof.
  assert (Hlist : exists access_list emitted,
            main_access_list net_LookupHost tr = (Done access_list, tr ++ emitted)).
  { assert (Hrun := main_access_list_run net_LookupHost tr). cbv zeta in Hrun.
    destruct (String.eqb (os_Getenv "ACCESS_LIST") "").
    - exists [], []. now rewrite app_nil_r.
    - destruct Hrun as (emitted & Heq & _). eexists. eexists. exact Heq. }
  destruct Hlist as (access_list & emitted & Heq).
  exists access_list, emitted. split; [exact Heq|].
  split; [unfold main_setup, bind; now rewrite Heq|].
  unfold main_port. destruct (os_Getenv "PORT") as [|c port].
  - repeat split; [discriminate | congruence].
  - repeat split; [discriminate | discriminate].
Qed.

(** X17: what the lookups are for: an address the resolver gives for an
    entry of [ACCESS_LIST] that is handed to it is on the list of [main],
    and so is the entry itself; neither is denied. *)
Theorem resolved_address_is_allowed (tr : list Event) (v a : string) :
  os_Getenv "ACCESS_LIST" <> "" ->
  v ∈ strings_Split (os_Getenv "ACCESS_LIST") " " ->
  needs_lookup v = true ->
  a ∈ fst (net_LookupHost v) ->
  exists access_list tr',
    main_access_list net_LookupHost tr = (Done access_list, tr') /\
    a ∈ access_list /\ v ∈ access_list /\
    denied access_list a = false /\ denied access_list v = false.
Proof.
  intros Hne Hv Hneed Ha. assert (Hrun := main_access_list_run net_LookupHost tr).
  cbv zeta in Hrun. apply String.eqb_neq in Hne. rewrite Hne in Hrun.
  destruct Hrun as (emitted & Heq & _).
  eexists. eexists. split; [exact Heq|].
  assert (Hin : a ∈ resolved net_LookupHost (strings_Split (os_Getenv "ACCESS_LIST") " ")).
  { unfold resolved. apply list_elem_of_In, in_flat_map. exists v.
    split; [now apply list_elem_of_In|]. rewrite Hneed. now apply list_elem_of_In. }
  assert (Hallowed : forall l x, x ∈ l -> denied l x = false).
  { intros l x Hx. apply not_true_iff_false. rewrite denied_spec. tauto. }
  assert (Ha' : a ∈ strings_Split (os_Getenv "ACCESS_LIST") " "
                  ++ resolved net_LookupHost (strings_Split (os_Getenv "ACCESS_LIST") " "))
    by (apply elem_of_app; now right).
  assert (Hv' : v ∈ strings_Split (os_Getenv "ACCESS_LIST") " "
                  ++ resolved net_LookupHost (strings_Split (os_Getenv "ACCESS_LIST") " "))
    by (apply elem_of_app; now left).
  repeat split; auto.
Qed.

End MainTheorems.

(** * The further properties at work *)

Lemma transport_error_is_returned_witness :
  demo_RoundTrip "" [] true down_request [] =
    (Done (Err "dial tcp: connection refused"),
     decision_log "10.0.0.2" ++ forward_log (P := demo_platform "") down_request
     ++ [EvNetwork down_request]).
Proof.
  unfold demo_RoundTrip.
  apply (transport_error_is_returned (P := demo_platform "")
           (H := http_Transport_RoundTrip (P := demo_platform ""))
           (NewLoggingRoundTripper [] true) down_request []); reflexivity.
Defined.

Lemma unreadable_response_is_fatal_witness :
  fst (RoundTrip (RoundTripper := LoggingRoundTripper_RoundTripper (P := broken_platform)
                                   (H := http_Transport_RoundTrip (P := broken_platform)))
         (NewLoggingRoundTripper [] true) stranger_request []) = Exit 1.
Proof.
  rewrite (unreadable_response_is_fatal (P := broken_platform)
             (NewLoggingRoundTripper [] true) stranger_request [] broken_response
             "unexpected EOF" eq_refl eq_refl eq_refl).
  reflexivity.
Defined.

Lemma unreadable_body_is_fatal_unlogged_witness :
  demo_serve "" ["1.2.3.4"] true cut_off_request =
    (Exit 1, [EvLog (Println [VStr "unexpected EOF"])]).
Proof.
  unfold demo_serve, demo_proxy.
  apply (unreadable_body_is_fatal_unlogged (P := demo_platform "") ["1.2.3.4"] true
           cut_off_request _ "unexpected EOF" [] eq_refl eq_refl).
Defined.

Lemma nil_body_stays_nil_witness :
  exists out tr',
    director (P := demo_platform "") true stranger_request [] = (Done out, tr') /\
    req_Body out = None.
Proof.
  destruct (nil_body_stays_nil (P := demo_platform "") true stranger_request
              {| Scheme := "http"; Opaque := ""; Host := "backend.internal";
                 Path := "/path"; RawPath := ""; RawQuery := "x=1"; Fragment := "" |}
              [] eq_refl eq_refl eq_refl)
    as (out & tr' & Hd & _ & Hb & _).
  exists out, tr'. split; assumption.
Defined.

Lemma denied_same_entries_witness :
  denied ["10.0.0.1"; "10.0.0.2"; "10.0.0.1"] "10.0.0.3" =
  denied ["10.0.0.2"; "10.0.0.1"] "10.0.0.3".
Proof.
  apply denied_same_entries. intros x. rewrite !elem_of_cons. tauto.
Defined.

Lemma denied_more_entries_witness :
  denied (["1.2.3.4"] ++ ["5.6.7.8"]) "1.2.3.4" = false /\
  denied (["5.6.7.8"] ++ ["1.2.3.4"]) "1.2.3.4" = false.
Proof.
  apply denied_more_entries; [discriminate | reflexivity].
Defined.

Lemma delay_in_and_out_of_range_witness :
  pause (Duration_Milliseconds 50) = 50000000 /\
  pause (Duration_Milliseconds 9223372036855) = 0.
Proof.
  destruct (delay_in_and_out_of_range 50) as [Hin _].
  destruct (delay_in_and_out_of_range 9223372036855) as [_ Hout].
  split; [apply Hin | apply Hout]; lia.
Defined.

Lemma denied_cycle_trace_witness :
  fst (demo_serve "25" ["10.0.0.1"] true stranger_request) = Done (Ok forbidden) /\
  EvSleep 25000000 ∈ snd (demo_serve "25" ["10.0.0.1"] true stranger_request).
Proof.
  unfold demo_serve, demo_proxy. cbv zeta.
  rewrite (denied_cycle_trace (P := demo_platform "25") ["10.0.0.1"] true stranger_request
             {| Scheme := "http"; Opaque := ""; Host := "backend.internal";
                Path := "/path"; RawPath := ""; RawQuery := "x=1"; Fragment := "" |}
             [] eq_refl eq_refl eq_refl eq_refl).
  split; [reflexivity|]. cbn [snd]. vm_compute. elem_of_trace.
Defined.

Lemma joined_strings_Split_witness :
  joined " " (strings_Split " 1.2.3.4  backend.internal " " ") = " 1.2.3.4  backend.internal ".
Proof. apply joined_strings_Split. discriminate. Defined.

Lemma strings_Split_length_witness :
  length (strings_Split "1.2.3.4" ".") = 4%nat.
Proof.
  rewrite (strings_Split_length "1.2.3.4" "."); [reflexivity | discriminate].
Defined.

Lemma main_access_list_structure_witness :
  fst (main_access_list (P := env_platform (demo_env "1.2.3.4 backend.internal nohost" "" ""))
         demo_LookupHost []) =
    Done ["1.2.3.4"; "backend.internal"; "nohost"; "10.1.1.1"; "10.1.1.2"].
Proof.
  destruct (main_access_list_structure
              (P := env_platform (demo_env "1.2.3.4 backend.internal nohost" "" ""))
              demo_LookupHost []) as (emitted & Heq & _).
  - discriminate.
  - rewrite Heq. reflexivity.
Defined.

Lemma blank_entry_admits_unnamed_witness :
  exists access_list tr',
    main_access_list (P := env_platform (demo_env "1.2.3.4 " "" "")) demo_LookupHost []
      = (Done access_list, tr') /\
    "" ∈ access_list.
Proof.
  destruct (blank_entry_admits_unnamed
              (P := env_platform (demo_env "1.2.3.4 " "" "")) demo_LookupHost [])
    as (access_list & tr' & Heq & Hin & _).
  - right. right. exists "1.2.3.4". reflexivity.
  - exists access_list, tr'. split; assumption.
Defined.

Lemma literal_entries_not_resolved_witness :
  fst (main_access_list (P := env_platform (demo_env "1.2.3.4 5.6.7.8" "" ""))
         demo_LookupHost []) = Done ["1.2.3.4"; "5.6.7.8"].
Proof.
  rewrite (literal_entries_not_resolved
             (P := env_platform (demo_env "1.2.3.4 5.6.7.8" "" "")) demo_LookupHost []).
  - reflexivity.
  - discriminate.
  - intros v Hv.
    match type of Hv with _ ∈ ?l => change l with ["1.2.3.4"; "5.6.7.8"] in Hv end.
    rewrite !elem_of_cons in Hv.
    destruct Hv as [->|[->|Hv]]; [reflexivity | reflexivity | inversion Hv].
Defined.

Lemma resolved_address_is_allowed_witness :
  exists access_list tr',
    main_access_list (P := env_platform (demo_env "1.2.3.4 backend.internal" "" ""))
      demo_LookupHost [] = (Done access_list, tr') /\
    denied access_list "10.1.1.2" = false.
Proof.
  destruct (resolved_address_is_allowed
              (P := env_platform (demo_env "1.2.3.4 backend.internal" "" ""))
              demo_LookupHost [] "backend.internal" "10.1.1.2")
    as (access_list & tr' & Heq & _ & _ & Hd & _).
  - discriminate.
  - vm_compute. apply list_elem_of_further, list_elem_of_here.
  - reflexivity.
  - vm_compute. apply list_elem_of_further, list_elem_of_here.
  - exists access_list, tr'. split; assumption.
Defined.

(** * The delay setting *)

Section DelaySetting.
Context {P : Platform}.

(** C7, as the program has it: the delay setting is read from the
    environment and parsed inside every call of [sleep], that is, in every
    request.  An empty setting gives no delay.  A setting that parses is no
    error, whatever its sign: the director logs it and sleeps for that many
    milliseconds as [int64] nanoseconds; from -9223372036854 to 0 the
    duration is not positive and the sleep returns at once, and from
    -18446744073709 to -9223372036855 the product has wrapped around to a
    positive duration.  A setting that does not parse makes the director
    terminate the process once the request is logged, with no sleep, no
    rewrite and no outbound call.  The setup of [main] looks neither at the
    setting nor at [strconv.ParseInt]: with any other setting and any other
    parser it builds the same list, port and flag, and it always comes to
    the listener. *)
Theorem delay_setting_read_in_request (skip : bool) :
  (forall tr, sleep tr = (Done delay_error, tr ++ delay_events)) /\
  (os_Getenv "ROUTE_SERVICE_SLEEP_MILLI" = "" ->
     delay_error = None /\ delay_events = []) /\
  (forall n,
     os_Getenv "ROUTE_SERVICE_SLEEP_MILLI" <> "" ->
     strconv_ParseInt (os_Getenv "ROUTE_SERVICE_SLEEP_MILLI") 0 64 = Ok n ->
     delay_error = None /\
     delay_events =
       [ EvLog (Printf ("Sleeping for %d milliseconds" +:+ LF) [VInt n]);
         EvSleep (Duration_Milliseconds n) ] /\
     (- 9223372036854 <= n <= 0 -> pause (Duration_Milliseconds n) = 0) /\
     (- 18446744073709 <= n <= - 9223372036855 ->
        pause (Duration_Milliseconds n) = n * 1000000 + 2 ^ 64 /\
        0 < pause (Duration_Milliseconds n))) /\
  (forall err req tr,
     os_Getenv "ROUTE_SERVICE_SLEEP_MILLI" <> "" ->
     strconv_ParseInt (os_Getenv "ROUTE_SERVICE_SLEEP_MILLI") 0 64 = Err err ->
     body_error req = None ->
     director skip req tr =
       (Exit 1,
        tr ++ request_log (Header_Get (req_Header req) FORWARDED_FOR_HEADER)
                          (Header_Get (req_Header req) CF_FORWARDED_URL_HEADER)
                          (Header_Get (req_Header req) CF_PROXY_SIGNATURE_HEADER)
                          (string_of_bytes (body_bytes req)) (req_Header req) skip
           ++ [EvLog (Println [VStr err])])) /\
  (forall (delay : string) (parse : string -> Z -> Z -> GoResult Z)
          (net_LookupHost : string -> list string * option error) (tr : list Event),
     main_access_list (P := with_delay_setting P delay parse) net_LookupHost tr =
       main_access_list net_LookupHost tr /\
     main_port (P := with_delay_setting P delay parse) = main_port /\
     main_skipSslValidation (P := with_delay_setting P delay parse)
       = main_skipSslValidation /\
     exists access_list emitted,
       main_setup (P := with_delay_setting P delay parse) net_LookupHost tr =
         (Done (":" +:+ main_port,
                NewProxy (P := with_delay_setting P delay parse)
                  (NewLoggingRoundTripper access_list main_skipSslValidation)
                  main_skipSslValidation),
          tr ++ emitted)).
Proof.
  split; [exact sleep_run|].
  split; [|split; [|split]].
  - unfold delay_error, delay_events. intros ->. now split.
  - unfold delay_error, delay_events.
    intros n Hne Hp. apply String.eqb_neq in Hne. rewrite Hne, Hp.
    split; [reflexivity|]. split; [reflexivity|].
    unfold pause, Duration_Milliseconds, wrap64, time_Millisecond. split.
    + intros Hn. rewrite Z.mod_small by lia. lia.
    + intros Hn.
      assert (Hm : (n * 1000000 + 2 ^ 63) mod 2 ^ 64 = n * 1000000 + 2 ^ 63 + 2 ^ 64).
      { symmetry. apply (Z.mod_unique _ _ (-1)); lia. }
      rewrite Hm. lia.
  - intros err req tr Hne Hp Hb. apply String.eqb_neq in Hne.
    rewrite director_run, Hb. unfold delay_error, delay_events.
    now rewrite Hne, Hp.
  - intros delay parse net_LookupHost tr.
    assert (Hlist : main_access_list (P := with_delay_setting P delay parse) net_LookupHost tr
                    = main_access_list net_LookupHost tr) by reflexivity.
    split; [exact Hlist|]. split; [reflexivity|]. split; [reflexivity|].
    assert (Hdone : exists access_list emitted,
              main_access_list net_LookupHost tr = (Done access_list, tr ++ emitted)).
    { assert (Hrun := main_access_list_run net_LookupHost tr). cbv zeta in Hrun.
      destruct (String.eqb (os_Getenv "ACCESS_LIST") "").
      - exists [], []. now rewrite app_nil_r.
      - destruct Hrun as (emitted & Heq & _). eexists. eexists. exact Heq. }
    destruct Hdone as (access_list & emitted & Heq).
    exists access_list, emitted. unfold main_setup, bind. rewrite Hlist, Heq. reflexivity.
Qed.

End DelaySetting.

Lemma delay_setting_read_in_request_witness :
  director (P := demo_platform "abc") true stranger_request [] =
    (Exit 1,
     request_log "10.0.0.2" "http://backend.internal/path?x=1" "c2ln" ""
                 (req_Header stranger_request) true
     ++ [EvLog (Println [VStr ("strconv.ParseInt: parsing " +:+ DQ +:+ "abc" +:+ DQ
                               +:+ ": invalid syntax")])]) /\
  pause (Duration_Milliseconds (-5)) = 0 /\
  pause (Duration_Milliseconds (-9223372036855)) = 9223372036854551616 /\
  fst (main_access_list (P := with_delay_setting (demo_platform "") "abc" demo_ParseInt)
         demo_LookupHost []) = Done [].
Proof.
  split; [|split; [|split]].
  - destruct (delay_setting_read_in_request (P := demo_platform "abc") true)
      as (_ & _ & _ & Hfail & _).
    apply (Hfail _ stranger_request []); [discriminate | reflexivity | reflexivity].
  - destruct (delay_setting_read_in_request (P := demo_platform "-5") true)
      as (_ & _ & Hneg & _).
    destruct (Hneg (-5)) as (_ & _ & Hp & _); [discriminate | reflexivity |].
    apply Hp. lia.
  - destruct (delay_setting_read_in_request (P := demo_platform "-9223372036855") true)
      as (_ & _ & Hneg & _).
    destruct (Hneg (-9223372036855)) as (_ & _ & _ & Hw); [discriminate | reflexivity |].
    destruct Hw as [Hw _]; [lia|]. rewrite Hw. reflexivity.
  - destruct (delay_setting_read_in_request (P := demo_platform "") true)
      as (_ & _ & _ & _ & Hmain).
    destruct (Hmain "abc" demo_ParseInt demo_LookupHost []) as (Hlist & _).
    rewrite Hlist. reflexivity.
Defined.
